(** * kubetools-client: status aggregation, guarded removal, process runner

    Shallow embedding of
    - [get_containers_status], [get_container_status],
      [ensure_docker_dev_network], [_read_command_output],
      [_run_process_with_spinner], [run_process] and [run_compose_process]
      from kubetools_client/dev/docker_util.py,
    - [deploy] (its annotations), [_dry_deploy_object_loop],
      [_dry_deploy_loop], [_get_objects_to_delete], [_delete_objects] and
      [remove] from kubetools_client/cli/deploy.py,
    - the upgrades run by [up] from kubetools_client/dev/environment.py. *)

From Stdlib Require Import String Ascii List ZArith Lia.
From stdpp Require Import base gmap list strings.
Import ListNotations.

Open Scope string_scope.

(** ** Python string helpers *)

Module PyStr.

(** [s.split(sep)] for a one-character separator: always at least one
    segment, empty segments kept. *)
Fixpoint split (sep : ascii) (s : string) : list string :=
  match s with
  | EmptyString => [EmptyString]
  | String c s' =>
      let parts := split sep s' in
      if Ascii.eqb c sep then EmptyString :: parts
      else match parts with
           | p :: ps => String c p :: ps
           | [] => [String c EmptyString]
           end
  end.

(** [s.replace(pat, '')] for a non-empty [pat]: non-overlapping occurrences
    removed from left to right. [fuel] bounds the number of steps; the
    length of [s] is always enough. *)
Fixpoint remove_fuel (fuel : nat) (pat s : string) : string :=
  match fuel with
  | O => s
  | S f =>
      match s with
      | EmptyString => EmptyString
      | String c s' =>
          if String.prefix pat s
          then remove_fuel f pat (substring (String.length pat) (String.length s) s)
          else String c (remove_fuel f pat s')
      end
  end.

(** [s.replace(pat, '')]; with an empty [pat] Python inserts [''] between
    characters, which leaves [s] unchanged. *)
Definition replace_empty (pat s : string) : string :=
  match pat with
  | EmptyString => s
  | _ => remove_fuel (String.length s) pat s
  end.

(** [s.startswith(pat)] *)
Definition startswith (s pat : string) : bool := String.prefix pat s.

(** [sep.join(xs)] *)
Fixpoint join (sep : string) (xs : list string) : string :=
  match xs with
  | [] => EmptyString
  | [x] => x
  | x :: xs' => x ++ sep ++ join sep xs'
  end.

End PyStr.

(** ** The development status aggregator ([get_containers_status]) *)

Module Status.

(** A container as returned by [docker_client.containers.list]. The label
    filter of that call ([com.docker.compose.project] or
    [com.docker.compose.project=<compose name>]) guarantees the compose
    project label, so it is a plain field; [kubetools.project.env] is read
    with [.get] and may be missing. *)
Record docker_container := {
  c_project : string;                  (* labels['com.docker.compose.project'] *)
  c_env_label : option string;         (* labels.get('kubetools.project.env') *)
  c_name : string;                     (* container.name *)
  c_status : string;                   (* container.status *)
  c_ports : option (list (string * list string));
    (* attrs['NetworkSettings']['Ports']: None models a falsy value,
       each entry maps a local port to its list of HostPort values *)
  c_id : string;
  c_labels : list (string * string);
}.

Record port := { p_local : string; p_host : string }.

(** The per-container dict built by the aggregator. [None] for
    [up]/[id] is Python's [None]; [None] for [labels] and the two flags
    means the key is absent from the dict. *)
Record container_data := {
  up : option bool;
  ports : list port;
  id : option string;
  labels : option (list (string * string));
  is_dependency : option bool;
  is_deployment : option bool;
}.

(** A container declaration of the project configuration, as yielded by
    [get_all_containers]: [None] when the key is not set. *)
Record desired_container := {
  d_is_dependency : option bool;
  d_is_deployment : option bool;
}.

(** The parts of [kubetools_config] the aggregator reads. *)
Record kubetools_config := {
  cfg_docker_name : string;   (* dockerise_label(kubetools_config['name']) *)
  cfg_env : string;           (* kubetools_config['env'] *)
  cfg_all_containers : list (string * desired_container);
                              (* get_all_containers(kubetools_config) *)
}.

Inductive py_error :=
  | ValueError (env name : string)   (* 'Duplicate container for env ...' *)
  | IndexError.                      (* container.name.split('_')[1] *)

Inductive result (A : Type) :=
  | Ok (a : A)
  | Err (e : py_error).
Arguments Ok {A} a.
Arguments Err {A} e.

Abbreviation env_map := (gmap string (gmap string container_data)).

(** Lines 133-136: the environment of a container. *)
Definition resolve_env (docker_name : string) (c : docker_container) : string :=
  match c_env_label c with
  | Some e =>
      if String.eqb e "" then PyStr.replace_empty docker_name (c_project c) else e
  | None => PyStr.replace_empty docker_name (c_project c)
  end.

(** Line 139: [container.name.split('_')[1]]; [None] is the IndexError. *)
Definition container_name (c : docker_container) : option string :=
  nth_error (PyStr.split "_"%char (c_name c)) 1.

(** Lines 142-154. *)
Fixpoint ports_of (ps : list (string * list string)) : list port :=
  match ps with
  | [] => []
  | (local, host_port) :: ps' =>
      match host_port with
      | [] => ports_of ps'
      | h :: _ => {| p_local := local; p_host := h |} :: ports_of ps'
      end
  end.

Definition container_ports (c : docker_container) : list port :=
  match c_ports c with
  | None => []
  | Some ps => ports_of ps
  end.

(** Lines 156-161. *)
Definition live_data (c : docker_container) : container_data :=
  {| up := Some (String.eqb (c_status c) "running");
     ports := container_ports c;
     id := Some (c_id c);
     labels := Some (c_labels c);
     is_dependency := None;
     is_deployment := None |}.

(** Line 130: containers of other projects are skipped in the
    all-environments listing. *)
Definition skipped (docker_name : string) (all_environments : bool)
    (c : docker_container) : bool :=
  all_environments && negb (PyStr.startswith (c_project c) docker_name).

(** Lines 128-170: the loop over the listed containers. *)
Fixpoint collect (docker_name : string) (all_environments : bool)
    (cs : list docker_container) (env_to_containers : env_map) : result env_map :=
  match cs with
  | [] => Ok env_to_containers
  | c :: cs' =>
      if skipped docker_name all_environments c
      then collect docker_name all_environments cs' env_to_containers
      else
        let env := resolve_env docker_name c in
        match container_name c with
        | None => Err IndexError
        | Some name =>
            let env_containers := default ∅ (env_to_containers !! env) in
            match env_containers !! name with
            | Some _ => Err (ValueError env name)
            | None =>
                collect docker_name all_environments cs'
                  (<[env := <[name := live_data c]> env_containers]> env_to_containers)
            end
        end
  end.

(** Lines 172-175. *)
Definition ensure_current (current_env : string) (m : env_map) : env_map :=
  match m !! current_env with
  | Some _ => m
  | None => <[current_env := ∅]> m
  end.

(** Lines 180-184. *)
Definition absent_data : container_data :=
  {| up := None; ports := []; id := None; labels := None;
     is_dependency := None; is_deployment := None |}.

(** Lines 186-187. *)
Definition set_flags (d : desired_container) (r : container_data) : container_data :=
  {| up := up r; ports := ports r; id := id r; labels := labels r;
     is_dependency := Some (default false (d_is_dependency d));
     is_deployment := Some (default false (d_is_deployment d)) |}.

(** Lines 178-187 for one environment. *)
Definition fill_env (all_containers : list (string * desired_container))
    (containers : gmap string container_data) : gmap string container_data :=
  fold_left (fun cs '(name, d) =>
      <[name := set_flags d (default absent_data (cs !! name))]> cs)
    all_containers containers.

(** Lines 125-187: the completed map of every environment. *)
Definition aggregate (cfg : kubetools_config) (all_environments : bool)
    (docker_containers : list docker_container) : result env_map :=
  match collect (cfg_docker_name cfg) all_environments docker_containers ∅ with
  | Err e => Err e
  | Ok m => Ok (fill_env (cfg_all_containers cfg) <$> ensure_current (cfg_env cfg) m)
  end.

Inductive status_result :=
  | AllEnvs (m : env_map)
  | CurrentEnv (m : gmap string container_data).

(** Lines 189-191. *)
Definition get_containers_status (cfg : kubetools_config) (all_environments : bool)
    (docker_containers : list docker_container) : result status_result :=
  match aggregate cfg all_environments docker_containers with
  | Err e => Err e
  | Ok m =>
      if all_environments then Ok (AllEnvs m)
      else Ok (CurrentEnv (default ∅ (m !! cfg_env cfg)))
  end.

(** The listed containers the loop does not skip, and the key each one
    is stored under. *)
Definition processed (docker_name : string) (all_environments : bool)
    (cs : list docker_container) : list docker_container :=
  filter (fun c => skipped docker_name all_environments c = false) cs.

Definition container_key (docker_name : string) (c : docker_container)
    : string * option string :=
  (resolve_env docker_name c, container_name c).

(** Whether a processed listed container of environment [env] has the
    logical name [name]. *)
Definition observed (docker_name : string) (all_environments : bool)
    (cs : list docker_container) (env name : string) : bool :=
  existsb (fun c => bool_decide (container_key docker_name c = (env, Some name)))
    (processed docker_name all_environments cs).

(** The fields the final loop leaves alone. *)
Definition core (r : container_data)
    : option bool * list port * option string * option (list (string * string)) :=
  (up r, ports r, id r, labels r).

End Status.

(** ** Guarded removal ([_get_objects_to_delete], [remove]) *)

Module Deploy.

Inductive kind := KService | KDeployment | KJob.

(** A listed cluster object: [obj.metadata.name] and
    [obj.metadata.labels.get('kubetools/name')]. *)
Record kube_object := {
  obj_name : string;
  obj_app_label : option string;
}.

(** The live objects of each kind in the build's namespace, as returned by
    [list_services], [list_deployments] and [list_jobs]. *)
Abbreviation cluster := (kind -> list kube_object).

(** Calls to the cluster API and the confirmation prompt, in order. *)
Inductive event :=
  | EvList (k : kind)
  | EvConfirm
  | EvDelete (k : kind) (name : string).

(** [click.BadParameter] raised by this file. *)
Inductive click_error :=
  | MissingTargets                                  (* 'Must either provide app names or --all flag!' *)
  | BothTargets                                     (* 'Cannot provide both app naems and --all flag!' *)
  | NotFound (object_type : string) (leftover : gset string).  (* '{object_type} not found {leftover}' *)

(** State (the trace of calls so far) and exceptions. *)
Definition M (A : Type) : Type := list event -> (A + click_error) * list event.

Definition ret {A} (a : A) : M A := fun tr => (inl a, tr).
Definition raise {A} (e : click_error) : M A := fun tr => (inr e, tr).
Definition bind {A B} (m : M A) (f : A -> M B) : M B :=
  fun tr =>
    match m tr with
    | (inl a, tr') => f a tr'
    | (inr e, tr') => (inr e, tr')
    end.
Definition emit (e : event) : M unit := fun tr => (inl tt, (tr ++ [e])%list).

Local Notation "x <- m ;; k" := (bind m (fun x => k))
  (at level 100, m at next level, right associativity).

(** [obj.metadata.labels.get('kubetools/name') in app_names] *)
Definition label_in (app_names : list string) (o : kube_object) : bool :=
  match obj_app_label o with
  | Some n => bool_decide (n ∈ app_names)
  | None => false
  end.

(** Lines 168-198 (the echo output is left out). *)
Definition get_objects_to_delete (object_type : string) (k : kind)
    (live : cluster) (remove_all : bool) (app_names : list string)
    (check_leftovers : bool) : M (list kube_object) :=
  _ <- emit (EvList k) ;;
  let objects := live k in
  if remove_all then ret objects
  else
    let objects_to_delete := List.filter (label_in app_names) objects in
    if check_leftovers then
      let object_names_to_delete : gset string :=
        list_to_set (omap obj_app_label objects_to_delete) in
      let leftover_app_names := (list_to_set app_names : gset string) ∖ object_names_to_delete in
      if decide (leftover_app_names = ∅) then ret objects_to_delete
      else raise (NotFound object_type leftover_app_names)
    else ret objects_to_delete.

(** Lines 201-204. *)
Fixpoint delete_objects (k : kind) (objects_to_delete : list kube_object) : M unit :=
  match objects_to_delete with
  | [] => ret tt
  | o :: os => _ <- emit (EvDelete k (obj_name o)) ;; delete_objects k os
  end.

Definition nonempty {A} (l : list A) : bool :=
  match l with [] => false | _ => true end.

(** Lines 223-265. [click.confirm] is called without [abort=True], so its
    answer does not stop the deletions. *)
Definition remove (live : cluster) (remove_all yes : bool)
    (app_names : list string) : M unit :=
  if negb (nonempty app_names) && negb remove_all then raise MissingTargets
  else if nonempty app_names && remove_all then raise BothTargets
  else
    services_to_delete <- get_objects_to_delete "Services" KService live remove_all app_names true ;;
    deployments_to_delete <- get_objects_to_delete "Deployments" KDeployment live remove_all app_names true ;;
    jobs_to_delete <- get_objects_to_delete "Jobs" KJob live remove_all app_names false ;;
    if negb (nonempty services_to_delete || nonempty deployments_to_delete
             || nonempty jobs_to_delete)
    then ret tt
    else
      _ <- (if yes then ret tt else emit EvConfirm) ;;
      _ <- delete_objects KService services_to_delete ;;
      _ <- delete_objects KDeployment deployments_to_delete ;;
      delete_objects KJob jobs_to_delete.

(** Whether a live object of kind [k] carries the logical name [n]. *)
Definition matched (live : cluster) (k : kind) (n : string) : Prop :=
  exists o, o ∈ live k /\ obj_app_label o = Some n.

(** What the listing step of [remove] returns for kind [k] when it does
    not raise. *)
Definition selected (live : cluster) (remove_all : bool) (app_names : list string)
    (k : kind) : list kube_object :=
  if remove_all then live k else List.filter (label_in app_names) (live k).

(** The calls made by [delete_objects k os]. *)
Definition deletions (k : kind) (os : list kube_object) : list event :=
  map (fun o => EvDelete k (obj_name o)) os.

End Deploy.

(** ** The process runner ([run_process]) *)

Module Process.

(** What the spawned child does: spawning raises [OSError], or the child
    exits with a return code after writing the given lines (already
    stripped of ANSI escapes by [_read_command_output]). *)
Inductive process_outcome :=
  | SpawnFailed (exc : string)
  | Exited (returncode : Z) (output_lines : list string).

(** The second argument of [KubeDevCommandError]: the output, or the
    exception itself ([getattr(e, 'output', e)] on an [OSError]). *)
Inductive payload :=
  | Output (stdout : option string)
  | Exception (exc : string).

(** [KubeDevCommandError('Compose command failed: {0}'.format(args), ...)] *)
Record command_error := KubeDevCommandError {
  err_args : list string;
  err_output : payload;
}.

Definition newline : string := String (ascii_of_nat 10) EmptyString.

(** Lines 280-288; [settings.debug == 0] holds for [False] and [0]. *)
Definition capturing (debug : nat) (capture_output : option bool) : bool :=
  match capture_output with
  | Some true => true
  | Some false => false
  | None => Nat.eqb debug 0
  end.

(** Lines 292-318. In captured mode the output is the re-joined lines
    (line 260); inline, [communicate()] returns [None] for stdout, which is
    not piped. *)
Definition run_process (args : list string) (debug : nat)
    (capture_output : option bool) (outcome : process_outcome)
    : option string + command_error :=
  match outcome with
  | SpawnFailed e => inr (KubeDevCommandError args (Exception e))
  | Exited code output_lines =>
      let stdout :=
        if capturing debug capture_output
        then Some (PyStr.join newline output_lines) else None in
      if (0 <? code)%Z then inr (KubeDevCommandError args (Output stdout))
      else inl stdout
  end.

End Process.

(** ** Reading a child's output ([_read_command_output],
    [_run_process_with_spinner]) *)

Module Output.

(** The child's output is a stream of bytes (integers 0-255); a line is
    split off at the byte 10 and decoded to code points by [decode()]. *)

(** The character classes of the regex [(\x9B|\x1B\[)[0-?]*[ -\/]*[@-~]]. *)
Definition is_param (c : Z) : bool := (48 <=? c)%Z && (c <=? 63)%Z.   (* [0-?] *)
Definition is_inter (c : Z) : bool := (32 <=? c)%Z && (c <=? 47)%Z.   (* [ -\/] *)
Definition is_final (c : Z) : bool := (64 <=? c)%Z && (c <=? 126)%Z.  (* [@-~] *)

(** The first code point of a match: [\x1B] or [\x9B]. *)
Definition introducer (c : Z) : Prop := c = 27%Z \/ c = 155%Z.

Fixpoint skip_params (l : list Z) : list Z :=
  match l with
  | c :: l' => if is_param c then skip_params l' else l
  | [] => []
  end.

Fixpoint skip_inters (l : list Z) : list Z :=
  match l with
  | c :: l' => if is_inter c then skip_inters l' else l
  | [] => []
  end.

(** [[0-?]*[ -\/]*[@-~]] at the head of [l]: the rest after the match. The
    three classes are disjoint, so the greedy runs never need to give a
    character back. *)
Definition csi_rest (l : list Z) : option (list Z) :=
  match skip_inters (skip_params l) with
  | c :: r => if is_final c then Some r else None
  | [] => None
  end.

(** The whole pattern at the head of [l]. *)
Definition match_at (l : list Z) : option (list Z) :=
  match l with
  | c :: r =>
      if (c =? 155)%Z then csi_rest r
      else if (c =? 27)%Z then
        match r with
        | c' :: r' => if (c' =? 91)%Z then csi_rest r' else None
        | [] => None
        end
      else None
  | [] => None
  end.

(** [re.sub(pattern, '', s)]: scan left to right, drop each match and go
    on after it, keep a character where no match starts. *)
Fixpoint sub_fuel (fuel : nat) (l : list Z) : list Z :=
  match fuel with
  | O => l
  | S f =>
      match l with
      | [] => []
      | c :: l' =>
          match match_at l with
          | Some rest => sub_fuel f rest
          | None => c :: sub_fuel f l'
          end
      end
  end.

Definition strip_ansi (l : list Z) : list Z := sub_fuel (length l) l.

(** [s.strip('\n')] *)
Fixpoint drop_nl (l : list Z) : list Z :=
  match l with
  | c :: l' => if (c =? 10)%Z then drop_nl l' else l
  | [] => []
  end.

Definition strip_nl (l : list Z) : list Z := rev (drop_nl (rev (drop_nl l))).

(** [command.stdout.readline()]: the next line with its ['\n'], and what
    is left of the stream. *)
Fixpoint readline (s : list Z) : list Z * list Z :=
  match s with
  | [] => ([], [])
  | c :: s' =>
      if (c =? 10)%Z then ([c], s')
      else let '(line, rest) := readline s' in (c :: line, rest)
  end.

(** [bytes.decode()]: UTF-8 with [errors='strict']; [None] is the
    [UnicodeDecodeError]. Only the well-formed sequences of the Unicode
    standard are accepted: no overlong forms, no surrogates, nothing past
    U+10FFFF. *)
Definition in_range (lo hi b : Z) : bool := (lo <=? b)%Z && (b <=? hi)%Z.
Definition cont (b : Z) : bool := in_range 128 191 b.

Fixpoint utf8_decode (l : list Z) : option (list Z) :=
  match l with
  | [] => Some []
  | b :: r =>
      if (b <? 128)%Z then option_map (cons b) (utf8_decode r)
      else if in_range 194 223 b then
        match r with
        | b1 :: r1 =>
            if cont b1
            then option_map (cons ((b - 192) * 64 + (b1 - 128))%Z) (utf8_decode r1)
            else None
        | [] => None
        end
      else if in_range 224 239 b then
        match r with
        | b1 :: b2 :: r2 =>
            if in_range (if (b =? 224)%Z then 160 else 128)
                        (if (b =? 237)%Z then 159 else 191) b1 && cont b2
            then option_map
                   (cons ((b - 224) * 4096 + (b1 - 128) * 64 + (b2 - 128))%Z)
                   (utf8_decode r2)
            else None
        | _ => None
        end
      else if in_range 240 244 b then
        match r with
        | b1 :: b2 :: b3 :: r3 =>
            if in_range (if (b =? 240)%Z then 144 else 128)
                        (if (b =? 244)%Z then 143 else 191) b1 && cont b2 && cont b3
            then option_map
                   (cons ((b - 240) * 262144 + (b1 - 128) * 4096
                          + (b2 - 128) * 64 + (b3 - 128))%Z)
                   (utf8_decode r3)
            else None
        | _ => None
        end
      else None
  end.

(** Lines 199-221: read until [readline] returns nothing. A line that does
    not decode raises [UnicodeDecodeError] in the reader thread, which ends
    it; the lines appended before stay in [output_lines]. *)
Fixpoint read_fuel (fuel : nat) (s : list Z) : list (list Z) :=
  match fuel with
  | O => []
  | S f =>
      match readline s with
      | ([], _) => []
      | (line, rest) =>
          match utf8_decode line with
          | Some text => strip_ansi (strip_nl text) :: read_fuel f rest
          | None => []
          end
      end
  end.

Definition read_command_output (s : list Z) : list (list Z) :=
  read_fuel (S (length s)) s.

(** ['\n'.join(output_lines)] *)
Fixpoint join_lines (xs : list (list Z)) : list Z :=
  match xs with
  | [] => []
  | [x] => x
  | x :: xs' => (x ++ 10%Z :: join_lines xs')%list
  end.

(** Lines 224-274. [shell] is what the shell started with the command line
    does: its return code and its combined output stream. The output is
    joined once the reader thread has ended ([wait_with_spinner], from
    cli/wait_util.py, is taken to return then), and [command.poll()] is
    taken to find the child exited. *)
Definition run_process_with_spinner (shell : string -> Z * list Z)
    (args : list string) : Z * list Z :=
  let '(returncode, stream) := shell (PyStr.join " " args) in
  (returncode, join_lines (read_command_output stream)).

(** A stream of complete lines followed by an unterminated [last] one, and
    the lines it holds. *)
Definition stream_of (lines : list (list Z)) (last : list Z) : list Z :=
  (concat (map (fun L => L ++ [10%Z]) lines) ++ last)%list.

Definition lines_of (lines : list (list Z)) (last : list Z) : list (list Z) :=
  (lines ++ match last with [] => [] | _ => [last] end)%list.

End Output.

(** ** Other parts of docker_util.py and the dev commands *)

Module DevUtil.
Import Status.

(** Lines 48-61, on the list of network names: [networks.create('dev')]
    adds a network named [dev]. *)
Definition ensure_docker_dev_network (networks : list string) : list string :=
  if bool_decide ("dev" ∈ networks) then networks else (networks ++ ["dev"])%list.

(** Lines 194-196. The [container_name] argument only adds a
    [com.docker.compose.service] filter to the Docker listing, whose result
    is the input [docker_containers]. With [all_environments] false the
    aggregator returns the scope environment's map. *)
Definition get_container_status (cfg : kubetools_config) (name : string)
    (docker_containers : list docker_container) : result (option container_data) :=
  match get_containers_status cfg false docker_containers with
  | Ok (CurrentEnv m) => Ok (m !! name)
  | Ok (AllEnvs m) => Ok None   (* not returned when all_environments is false *)
  | Err e => Err e
  end.

(** The [conditions] value of an upgrade: missing, a mapping (with the
    truthiness of its [test] value, [None] when [test] is missing; a
    [null] test is false), or a value without [.get] such as [null],
    on which line 157 raises [AttributeError]. *)
Inductive conditions :=
  | CondAbsent
  | CondMapping (test : option bool)
  | CondNotMapping.

(** Line 157: [upgrade.get('conditions', {}).get('test', True)]; [None]
    is the [AttributeError]. *)
Definition apply_when_testing (c : conditions) : option bool :=
  match c with
  | CondAbsent => Some true
  | CondMapping t => Some (default true t)
  | CondNotMapping => None
  end.

(** An entry of [kubetools_config['upgrades']]: its [command] ([None]
    when the key is missing) and its [conditions]. *)
Record upgrade := {
  u_command : option (list string);
  u_conditions : conditions;
}.

(** Lines 153-181, the loop over the upgrades: the (container, command)
    pairs handed to [run_container], in order, and whether the loop ended
    without an exception. [find_container_for_config] and [run_container]
    are not in this repository: [find_container] gives the container of an
    upgrade or [None] when it raises, [run_container] whether the run
    returned. A missing [command] raises [KeyError] at line 169, where
    [' '.join(upgrade['command'])] is evaluated as the default of
    [upgrade.get('name', ...)] even when the upgrade has a name. *)
Fixpoint run_upgrades (find_container : upgrade -> option string)
    (run_container : string -> list string -> bool)
    (containers upgrade_containers : list string) (is_testing : bool)
    (upgrades : list upgrade) : list (string * list string) * bool :=
  match upgrades with
  | [] => ([], true)
  | u :: us =>
      match apply_when_testing (u_conditions u) with
      | None => ([], false)
      | Some apply_when =>
          if is_testing && negb apply_when
          then run_upgrades find_container run_container containers upgrade_containers
                 is_testing us
          else
            match find_container u with
            | None => ([], false)
            | Some container_name =>
                if Deploy.nonempty containers
                   && negb (bool_decide (container_name ∈ upgrade_containers))
                then run_upgrades find_container run_container containers
                       upgrade_containers is_testing us
                else
                  match u_command u with
                  | None => ([], false)
                  | Some command =>
                      if run_container container_name command
                      then
                        let '(ran, ok) :=
                          run_upgrades find_container run_container containers
                            upgrade_containers is_testing us in
                        ((container_name, command) :: ran, ok)
                      else ([(container_name, command)], false)
                  end
            end
      end
  end.

(** [up] (environment.py, lines 117-181) up to the upgrades: the
    upgrades run and whether it got past them. [statuses] are the names
    of [get_containers_status(kubetools_config)] (from container_util,
    not in this repository), [None] when it raises; [build_ok] and
    [up_ok] tell whether [build_containers] and [up_containers] returned. *)
Definition up (statuses : option (list string)) (build_ok up_ok : bool)
    (find_container : upgrade -> option string)
    (run_container : string -> list string -> bool)
    (upgrades : list upgrade) (containers : list string)
    (no_upgrade is_testing : bool) : list (string * list string) * bool :=
  match statuses with
  | None => ([], false)
  | Some container_statuses =>
      let upgrade_containers :=
        if no_upgrade then []
        else if Deploy.nonempty containers then containers else container_statuses in
      if build_ok && up_ok then
        if Deploy.nonempty upgrade_containers
        then run_upgrades find_container run_container containers upgrade_containers
               is_testing upgrades
        else ([], true)
      else ([], false)
  end.

(** Lines 321-337. [compose_name] and [compose_filename] are
    [get_compose_name(kubetools_config)] and
    [get_compose_filename(kubetools_config)]; [create_compose_config] only
    writes the compose file. *)
Definition compose_command (compose_name compose_filename : string)
    (command_args : list string) : list string :=
  (["docker-compose"; "--project-directory"; "."; "--project-name"; compose_name;
    "--file"; compose_filename] ++ command_args)%list.

Definition run_compose_process (compose_name compose_filename : string)
    (command_args : list string) (debug : nat) (capture_output : option bool)
    (outcome : Process.process_outcome) : option string + Process.command_error :=
  Process.run_process (compose_command compose_name compose_filename command_args)
    debug capture_output outcome.

End DevUtil.

(** ** Other parts of deploy.py *)

Module DeployCli.

(** Lines 83-100 of [deploy]: the base annotations of every generated
    object. The inputs are the stripped, decoded outputs of the git calls;
    [git_tag] is [None] when [git tag --points-at] raises [KubeBuildError]. *)
Definition annotations (env namespace commit_hash branch_name : string)
    (git_tag : option string) : gmap string string :=
  let annotations : gmap string string :=
    <["app.kubernetes.io/managed-by" := "kubetools"]>
    (<["kubetools/git_commit" := commit_hash]>
    (<["kubetools/namespace" := namespace]>
    (<["kubetools/env" := env]> ∅))) in
  let annotations :=
    if String.eqb branch_name "HEAD" then annotations
    else <["kubetools/git_branch" := branch_name]> annotations in
  match git_tag with
  | Some tag => <["kubetools/git_tag" := tag]> annotations
  | None => annotations
  end.

Section DryRun.
Context {O : Type} (get_object_name : O -> string).

(** Lines 140-143: [{get_object_name(obj): obj for obj in objects}], a
    later object replacing an earlier one of the same name. *)
Definition name_to_object (objects : list O) : gmap string O :=
  fold_left (fun m obj => <[get_object_name obj := obj]> m) objects ∅.

(** Lines 145-155 on the successive lines typed at the prompt: the
    objects printed, and whether the loop ended by [break] ([false]: the
    input ran out, and [click.prompt] raises [click.Abort]). An empty line
    stands for the default [exit]. [click.Choice(name_to_object)] accepts
    exactly the names of the map, the default included; any other value
    is refused with an error message and prompted for again, so [exit]
    ends the loop only when an object is named [exit]. *)
Fixpoint dry_deploy_object_loop (name_to_object : gmap string O)
    (inputs : list string) : list O * bool :=
  match inputs with
  | [] => ([], false)
  | input :: inputs' =>
      let object_name := if String.eqb input "" then "exit" else input in
      match name_to_object !! object_name with
      | None => dry_deploy_object_loop name_to_object inputs'
      | Some obj =>
          if String.eqb object_name "exit" then ([], true)
          else
            let '(printed, ok) := dry_deploy_object_loop name_to_object inputs' in
            (obj :: printed, ok)
      end
  end.

(** Lines 158-165: the object types the dry run prompts for, in order. *)
Definition dry_deploy_loop (services deployments jobs : list O)
    : list (string * list O) :=
  List.filter (fun '(_, objects) => Deploy.nonempty objects)
    [("service", services); ("deployment", deployments); ("job", jobs)].

End DryRun.

End DeployCli.

(** ** Concrete inputs *)

Module Examples.
Import Status.

(** A project [web] in environment [dev] declaring [web] (a deployment)
    and [db] (a dependency). *)
Definition cfg_dev : kubetools_config :=
  {| cfg_docker_name := "web";
     cfg_env := "dev";
     cfg_all_containers :=
       [("web", {| d_is_dependency := None; d_is_deployment := Some true |});
        ("db", {| d_is_dependency := Some true; d_is_deployment := None |})] |}.

Definition mk_container (project : string) (env_label : option string)
    (name : string) : docker_container :=
  {| c_project := project; c_env_label := env_label; c_name := name;
     c_status := "running"; c_ports := Some [("8000/tcp", ["32000"])];
     c_id := name; c_labels := [] |}.

(** Only [web] is running, port 8000 published on 32000. *)
Definition live_web : docker_container := mk_container "webdev" None "webdev_web_1".

(** Two instances of [web] in [dev]. *)
Definition dup_web_1 : docker_container := mk_container "webdev" (Some "dev") "webdev_web_1".
Definition dup_web_2 : docker_container := mk_container "webdev" (Some "dev") "webdev_web_2".

(** An instance name without [_]. *)
Definition bare_dev : docker_container := mk_container "webdev" (Some "dev") "standalone".

(** A container of another compose project, without [_] in its name. *)
Definition bare_other : docker_container := mk_container "other" None "standalone".

(** A legacy container (no environment label) of environment [webtest]:
    its compose project is [web] followed by [webtest]. *)
Definition legacy_webtest : docker_container :=
  mk_container "webwebtest" None "webwebtest_web_1".

(** A legacy container whose compose project is exactly the project name. *)
Definition legacy_bare : docker_container := mk_container "web" None "web_web_1".

(** Live services and deployments of app [api] only, no jobs. *)
Definition live_api : Deploy.cluster :=
  fun k => match k with
           | Deploy.KJob => []
           | _ => [{| Deploy.obj_name := "api";  Deploy.obj_app_label := Some "api" |}]
           end.

(** Upgrades: [seed] is disabled for tests, [broken] has
    [conditions: null]. *)
Definition migrate : DevUtil.upgrade :=
  {| DevUtil.u_command := Some ["migrate"]; DevUtil.u_conditions := DevUtil.CondAbsent |}.
Definition seed : DevUtil.upgrade :=
  {| DevUtil.u_command := Some ["seed"];
     DevUtil.u_conditions := DevUtil.CondMapping (Some false) |}.
Definition broken : DevUtil.upgrade :=
  {| DevUtil.u_command := Some ["broken"]; DevUtil.u_conditions := DevUtil.CondNotMapping |}.

End Examples.

(** ** Lemmas on the aggregator *)

Module StatusFacts.
Import Status.

Section Collect.
Variable docker_name : string.
Variable all_environments : bool.

Abbreviation collect' := (collect docker_name all_environments).
Abbreviation processed' := (processed docker_name all_environments).
Abbreviation key := (container_key docker_name).

Lemma processed_cons (c : docker_container) (cs : list docker_container) :
  processed' (c :: cs) =
  if skipped docker_name all_environments c then processed' cs
  else c :: processed' cs.
Proof.
  unfold processed. rewrite filter_cons.
  destruct (skipped docker_name all_environments c); case_decide; done.
Qed.

Lemma collect_processed (cs : list docker_container) (acc : env_map) :
  collect' (processed' cs) acc = collect' cs acc.
Proof.
  revert acc; induction cs as [|c cs IH]; intros acc; [done|].
  rewrite processed_cons; simpl.
  destruct (skipped docker_name all_environments c) eqn:Hs; simpl.
  - apply IH.
  - rewrite Hs. destruct (container_name c); [|done].
    destruct (default ∅ (acc !! resolve_env docker_name c) !! s); [done|].
    apply IH.
Qed.

Lemma collect_app (l1 l2 : list docker_container) (acc : env_map) :
  collect' (l1 ++ l2) acc =
  match collect' l1 acc with Ok m => collect' l2 m | Err e => Err e end.
Proof.
  revert acc; induction l1 as [|c l1 IH]; intros acc; [done|].
  simpl. destruct (skipped docker_name all_environments c); [apply IH|].
  destruct (container_name c); [|done].
  destruct (default ∅ (acc !! resolve_env docker_name c) !! s); [done|].
  apply IH.
Qed.

Lemma lookup2_insert (acc : env_map) (env env' name name' : string)
    (r : container_data) :
  default ∅ (<[env := <[name := r]> (default ∅ (acc !! env))]> acc !! env') !! name' =
  if decide (env = env' /\ name = name') then Some r
  else default ∅ (acc !! env') !! name'.
Proof.
  destruct (decide (env = env')) as [<-|Hne].
  - rewrite lookup_insert_eq; simpl.
    destruct (decide (name = name')) as [<-|Hn].
    + rewrite lookup_insert_eq. rewrite decide_True; done.
    + rewrite lookup_insert_ne by done. rewrite decide_False; [done|].
      intros [_ ?]; done.
  - rewrite lookup_insert_ne by done. rewrite decide_False; [done|].
    intros [? _]; done.
Qed.

(** Entries already present survive the loop. *)
Lemma collect_mono (cs : list docker_container) (acc m : env_map)
    (env name : string) (r : container_data) :
  collect' cs acc = Ok m ->
  default ∅ (acc !! env) !! name = Some r ->
  default ∅ (m !! env) !! name = Some r.
Proof.
  revert acc; induction cs as [|c cs IH]; intros acc Hc Hr; simpl in Hc.
  - by injection Hc as <-.
  - destruct (skipped docker_name all_environments c); [by eapply IH|].
    destruct (container_name c) as [n|]; [|done].
    destruct (default ∅ (acc !! resolve_env docker_name c) !! n) eqn:Hd; [done|].
    eapply IH; [exact Hc|].
    rewrite lookup2_insert. case_decide as Hk; [|done].
    destruct Hk as [Hk1 Hk2]; subst; congruence.
Qed.

(** Every entry of the result was there before or comes from a processed
    listed container. *)
Lemma collect_origin (cs : list docker_container) (acc m : env_map)
    (env name : string) (r : container_data) :
  collect' cs acc = Ok m ->
  default ∅ (m !! env) !! name = Some r ->
  default ∅ (acc !! env) !! name = Some r \/
  exists c, c ∈ processed' cs /\ key c = (env, Some name) /\ r = live_data c.
Proof.
  revert acc; induction cs as [|c cs IH]; intros acc Hc Hr; simpl in Hc.
  - injection Hc as <-. by left.
  - rewrite processed_cons.
    destruct (skipped docker_name all_environments c) eqn:Hs.
    + destruct (IH acc Hc Hr) as [?|(c' & Hin & Hk & ->)]; [by left|].
      right. exists c'. done.
    + destruct (container_name c) as [n|] eqn:Hn; [|done].
      destruct (default ∅ (acc !! resolve_env docker_name c) !! n) eqn:Hd; [done|].
      destruct (IH _ Hc Hr) as [Hacc|(c' & Hin & Hk & ->)].
      * rewrite lookup2_insert in Hacc. case_decide as Hk.
        -- destruct Hk as [<- <-]. injection Hacc as <-. right. exists c.
           split; [by left|]. unfold container_key. rewrite Hn. done.
        -- by left.
      * right. exists c'. split; [by right|done].
Qed.

(** Every processed listed container is in the result under its key. *)
Lemma collect_contains (cs : list docker_container) (acc m : env_map)
    (c : docker_container) (name : string) :
  collect' cs acc = Ok m ->
  c ∈ processed' cs ->
  container_name c = Some name ->
  default ∅ (m !! resolve_env docker_name c) !! name = Some (live_data c).
Proof.
  revert acc; induction cs as [|c0 cs IH]; intros acc Hc Hin Hn;
    [by apply not_elem_of_nil in Hin|].
  rewrite processed_cons in Hin; simpl in Hc.
  destruct (skipped docker_name all_environments c0) eqn:Hs; [by eapply IH|].
  destruct (container_name c0) as [n0|] eqn:Hn0; [|done].
  destruct (default ∅ (acc !! resolve_env docker_name c0) !! n0) eqn:Hd; [done|].
  apply elem_of_cons in Hin as [->|Hin]; [|by eapply IH].
  rewrite Hn in Hn0; injection Hn0 as <-.
  eapply collect_mono; [exact Hc|].
  rewrite lookup2_insert. rewrite decide_True; done.
Qed.

(** A loop that returns a map saw well-formed names, no duplicate key and
    nothing already in the accumulator. *)
Lemma collect_ok_unique (cs : list docker_container) (acc m : env_map) :
  collect' cs acc = Ok m ->
  (forall c, c ∈ processed' cs -> exists n, container_name c = Some n /\
     default ∅ (acc !! resolve_env docker_name c) !! n = None) /\
  NoDup (map key (processed' cs)).
Proof.
  revert acc; induction cs as [|c cs IH]; intros acc Hc.
  - split; [|constructor]. intros c Hin. by apply not_elem_of_nil in Hin.
  - rewrite processed_cons. simpl in Hc.
    destruct (skipped docker_name all_environments c); [by eapply IH|].
    destruct (container_name c) as [n0|] eqn:Hn0; [|done].
    destruct (default ∅ (acc !! resolve_env docker_name c) !! n0) eqn:Hd; [done|].
    destruct (IH _ Hc) as [Hfresh Hnd]. split.
    + intros c' Hin. apply elem_of_cons in Hin as [->|Hin]; [by exists n0|].
      destruct (Hfresh c' Hin) as (n & Hn & Hl). exists n. split; [done|].
      rewrite lookup2_insert in Hl. case_decide; done.
    + simpl. constructor; [|done].
      intros Hk. apply list_elem_of_In, in_map_iff in Hk as (c' & Hk & Hin).
      apply list_elem_of_In in Hin.
      destruct (Hfresh c' Hin) as (n & Hn & Hl).
      unfold container_key in Hk. rewrite Hn0, Hn in Hk.
      injection Hk as He Hnn. subst n0.
      rewrite lookup2_insert, decide_True in Hl; done.
Qed.

Lemma collect_index_error (cs : list docker_container) (acc : env_map) :
  collect' cs acc = Err IndexError ->
  exists c, c ∈ processed' cs /\ container_name c = None.
Proof.
  revert acc; induction cs as [|c cs IH]; intros acc Hc; [done|].
  rewrite processed_cons. simpl in Hc.
  destruct (skipped docker_name all_environments c).
  - by eapply IH.
  - destruct (container_name c) as [n0|] eqn:Hn0.
    + destruct (default ∅ (acc !! resolve_env docker_name c) !! n0); [done|].
      destruct (IH _ Hc) as (c' & ? & ?). exists c'. split; [by right|done].
    + exists c. split; [by left|done].
Qed.

(** Conversely, well-formed names and distinct fresh keys make the loop
    succeed. *)
Lemma collect_succeeds (cs : list docker_container) (acc : env_map) :
  (forall c, c ∈ processed' cs -> exists n, container_name c = Some n /\
     default ∅ (acc !! resolve_env docker_name c) !! n = None) ->
  NoDup (map key (processed' cs)) ->
  exists m, collect' cs acc = Ok m.
Proof.
  revert acc; induction cs as [|c cs IH]; intros acc Hfresh Hnd; [by eexists|].
  rewrite processed_cons in Hfresh, Hnd. simpl.
  destruct (skipped docker_name all_environments c); [by apply IH|].
  destruct (Hfresh c (list_elem_of_here _ _)) as (n0 & Hn0 & Hd).
  rewrite Hn0, Hd. simpl in Hnd. apply NoDup_cons in Hnd as [Hnotin Hnd].
  apply IH; [|done].
  intros c' Hin. destruct (Hfresh c' (list_elem_of_further _ _ _ Hin)) as (n & Hn & Hl).
  exists n. split; [done|]. rewrite lookup2_insert. case_decide as Hk; [|done].
  destruct Hk as [He Hnn]. subst n. exfalso. apply Hnotin.
  apply list_elem_of_In, in_map_iff. exists c'.
  split; [|by apply list_elem_of_In].
  unfold container_key. rewrite Hn0, Hn, He. done.
Qed.

End Collect.

Lemma ensure_current_lookup (e : string) (m : env_map) (env : string) :
  default ∅ (ensure_current e m !! env) = default ∅ (m !! env).
Proof.
  unfold ensure_current. destruct (m !! e) eqn:He; [done|].
  destruct (decide (e = env)) as [<-|Hne].
  - by rewrite lookup_insert_eq, He.
  - by rewrite lookup_insert_ne.
Qed.

Lemma ensure_current_present (e : string) (m : env_map) :
  is_Some (ensure_current e m !! e).
Proof.
  unfold ensure_current. destruct (m !! e) eqn:He; [by eexists|].
  rewrite lookup_insert_eq. by eexists.
Qed.

Lemma fill_env_cons (n : string) (d : desired_container)
    (ds : list (string * desired_container)) (cs : gmap string container_data) :
  fill_env ((n, d) :: ds) cs =
  fill_env ds (<[n := set_flags d (default absent_data (cs !! n))]> cs).
Proof. done. Qed.

Lemma fill_env_app (ds1 ds2 : list (string * desired_container))
    (cs : gmap string container_data) :
  fill_env (ds1 ++ ds2) cs = fill_env ds2 (fill_env ds1 cs).
Proof. unfold fill_env. by rewrite fold_left_app. Qed.

Lemma fill_env_notin (ds : list (string * desired_container))
    (cs : gmap string container_data) (name : string) :
  name ∉ map fst ds -> fill_env ds cs !! name = cs !! name.
Proof.
  revert cs; induction ds as [|[n d] ds IH]; intros cs Hn; [done|].
  rewrite fill_env_cons. simpl in Hn. rewrite IH by set_solver.
  rewrite lookup_insert_ne; [done|]. set_solver.
Qed.

Lemma fill_env_core (ds : list (string * desired_container))
    (cs : gmap string container_data) (name : string) :
  core (default absent_data (fill_env ds cs !! name)) =
  core (default absent_data (cs !! name)).
Proof.
  revert cs; induction ds as [|[n d] ds IH]; intros cs; [done|].
  rewrite fill_env_cons, IH.
  destruct (decide (n = name)) as [<-|Hne].
  - by rewrite lookup_insert_eq.
  - by rewrite lookup_insert_ne.
Qed.

Lemma fill_env_present (ds : list (string * desired_container))
    (cs : gmap string container_data) (name : string) :
  is_Some (cs !! name) -> is_Some (fill_env ds cs !! name).
Proof.
  revert cs; induction ds as [|[n d] ds IH]; intros cs Hs; [done|].
  rewrite fill_env_cons. apply IH.
  destruct (decide (n = name)) as [<-|Hne].
  - rewrite lookup_insert_eq. by eexists.
  - by rewrite lookup_insert_ne.
Qed.

(** The declaration that takes effect for [name] is its last one. *)
Lemma fill_env_last (pre post : list (string * desired_container))
    (name : string) (d : desired_container) (cs : gmap string container_data) :
  name ∉ map fst post ->
  fill_env (pre ++ (name, d) :: post) cs !! name =
  Some (set_flags d (default absent_data (fill_env pre cs !! name))).
Proof.
  intros Hpost. rewrite fill_env_app, fill_env_cons, fill_env_notin by done.
  by rewrite lookup_insert_eq.
Qed.

Lemma aggregate_ok (cfg : kubetools_config) (all_environments : bool)
    (cs : list docker_container) (m : env_map) :
  aggregate cfg all_environments cs = Ok m ->
  exists m0, collect (cfg_docker_name cfg) all_environments cs ∅ = Ok m0 /\
    m = fill_env (cfg_all_containers cfg) <$> ensure_current (cfg_env cfg) m0.
Proof.
  unfold aggregate. destruct (collect _ _ _ _) as [m0|]; [|done].
  intros H; injection H as <-. by exists m0.
Qed.

End StatusFacts.

(** ** Claims on the aggregator *)

Module StatusClaims.
Import Status StatusFacts Examples.

Lemma processed_not_skipped (dn : string) (all : bool) (l : list docker_container)
    (c : docker_container) :
  c ∈ processed dn all l -> skipped dn all c = false.
Proof. unfold processed. by intros [? _]%list_elem_of_filter. Qed.

Lemma processed_id (dn : string) (all : bool) (l : list docker_container) :
  (forall c, c ∈ l -> skipped dn all c = false) -> processed dn all l = l.
Proof.
  intros H. induction l as [|c l IH]; [done|].
  rewrite processed_cons, H by (by left). f_equal. apply IH.
  intros c' Hin. apply H. by right.
Qed.

Lemma ensure_current_some (e : string) (m : env_map) (env : string)
    (cm : gmap string container_data) :
  m !! env = Some cm -> ensure_current e m !! env = Some cm.
Proof.
  intros Hm. unfold ensure_current. destruct (m !! e) eqn:He; [done|].
  rewrite lookup_insert_ne; [done|]. intros ->. congruence.
Qed.

Lemma observed_false (dn : string) (all : bool) (cs : list docker_container)
    (env name : string) (c : docker_container) :
  observed dn all cs env name = false ->
  c ∈ processed dn all cs -> container_key dn c <> (env, Some name).
Proof.
  unfold observed. intros Hobs Hin Hk.
  assert (existsb (fun c => bool_decide (container_key dn c = (env, Some name)))
            (processed dn all cs) = true) as Htrue.
  { apply existsb_exists. exists c. split; [by apply list_elem_of_In|].
    by apply bool_decide_eq_true. }
  congruence.
Qed.

(** C1: in every environment of the aggregated map, every container the
    configuration declares is present; when no processed live record of
    that environment has its logical name, the record is the synthesized
    one ([up = None], [id = None], no ports); in all cases its
    [is_dependency]/[is_deployment] flags are those of the declaration
    that takes effect for the name (its last one), defaulting to false. *)
Theorem aggregate_keeps_desired (cfg : kubetools_config) (all_environments : bool)
    (cs : list docker_container) (m : env_map) (env : string)
    (cm : gmap string container_data)
    (pre post : list (string * desired_container))
    (name : string) (d : desired_container) :
  aggregate cfg all_environments cs = Ok m ->
  m !! env = Some cm ->
  cfg_all_containers cfg = (pre ++ (name, d) :: post)%list ->
  name ∉ map fst post ->
  exists r, cm !! name = Some r /\
    is_dependency r = Some (default false (d_is_dependency d)) /\
    is_deployment r = Some (default false (d_is_deployment d)) /\
    (observed (cfg_docker_name cfg) all_environments cs env name = false ->
     up r = None /\ id r = None /\ ports r = []).
Proof.
  intros Hagg Hm Hds Hpost.
  destruct (aggregate_ok _ _ _ _ Hagg) as (m0 & Hc & ->).
  rewrite lookup_fmap in Hm.
  destruct (ensure_current (cfg_env cfg) m0 !! env) as [cm0|] eqn:Hcm0; [|done].
  simpl in Hm. injection Hm as <-.
  rewrite Hds, fill_env_last by done.
  eexists. split; [done|]. split; [done|]. split; [done|].
  intros Hobs.
  pose proof (fill_env_core pre cm0 name) as Hcore.
  destruct (cm0 !! name) as [r0|] eqn:Hr0.
  - exfalso.
    assert (default ∅ (m0 !! env) !! name = Some r0) as Hin.
    { rewrite <- (ensure_current_lookup (cfg_env cfg)), Hcm0. done. }
    destruct (collect_origin _ _ _ _ _ _ _ _ Hc Hin) as [Hnil|(c & Hc' & Hk & _)].
    + rewrite lookup_empty in Hnil. simpl in Hnil. by rewrite lookup_empty in Hnil.
    + by apply (observed_false _ _ _ _ _ c Hobs Hc').
  - unfold core in Hcore. simpl in Hcore.
    destruct (default absent_data (fill_env pre cm0 !! name)) as [u p i l dep dpl].
    simpl in *. injection Hcore as -> -> -> ->. done.
Qed.

(** Witness: the configuration declares [web] and [db]; only [web] runs
    in [dev]. *)
Lemma aggregate_keeps_desired_witness :
  exists r,
    default ∅ (match aggregate cfg_dev false [live_web] with
               | Ok m => m | Err _ => ∅ end !! "dev") !! "db" = Some r /\
    is_dependency r = Some true /\ is_deployment r = Some false /\
    (observed "web" false [live_web] "dev" "db" = false ->
     up r = None /\ id r = None /\ ports r = []).
Proof.
  destruct (aggregate_keeps_desired cfg_dev false [live_web]
    (match aggregate cfg_dev false [live_web] with Ok m => m | Err _ => ∅ end)
    "dev"
    (default ∅ (match aggregate cfg_dev false [live_web] with
                | Ok m => m | Err _ => ∅ end !! "dev"))
    [("web", {| d_is_dependency := None; d_is_deployment := Some true |})] []
    "db" {| d_is_dependency := Some true; d_is_deployment := None |})
    as (r & H1 & H2 & H3 & H4).
  - vm_compute. reflexivity.
  - vm_compute. reflexivity.
  - reflexivity.
  - simpl. set_solver.
  - exists r. split; [exact H1|]. split; [exact H2|]. split; [exact H3|exact H4].
Defined.

Lemma status_ok_collect (cfg : kubetools_config) (all : bool)
    (cs : list docker_container) (r : status_result) :
  get_containers_status cfg all cs = Ok r ->
  exists m0, collect (cfg_docker_name cfg) all cs ∅ = Ok m0.
Proof.
  unfold get_containers_status, aggregate.
  destruct (collect _ _ _ _) as [m0|]; [by exists m0|done].
Qed.

Lemma status_err_collect (cfg : kubetools_config) (all : bool)
    (cs : list docker_container) (e : py_error) :
  get_containers_status cfg all cs = Err e <->
  collect (cfg_docker_name cfg) all cs ∅ = Err e.
Proof.
  unfold get_containers_status, aggregate.
  destruct (collect _ _ _ _) as [m0|e'].
  - split; [|done]. by destruct all.
  - simpl. split; intros H; injection H as ->; done.
Qed.

Lemma nth_error_map_some {A B} (f : A -> B) (l : list A) (i : nat) (x : A) :
  nth_error l i = Some x -> nth_error (map f l) i = Some (f x).
Proof. intros H. by rewrite nth_error_map, H. Qed.

(** C2 (as amended): if two processed live records resolve to the same
    logical name in the same environment, aggregation never returns a map
    (so neither record overwrites the other); the error raised is the
    duplicate-container [ValueError] whenever every processed record has
    a [_]-separated instance name (otherwise an [IndexError] from an
    earlier record may come first). Aggregation returns normally only
    when the keys of the processed records are pairwise distinct. *)
Theorem duplicate_name_aborts (cfg : kubetools_config) (all_environments : bool)
    (cs : list docker_container) :
  (forall r, get_containers_status cfg all_environments cs = Ok r ->
     NoDup (map (container_key (cfg_docker_name cfg))
              (processed (cfg_docker_name cfg) all_environments cs))) /\
  (forall (i j : nat) (c1 c2 : docker_container) (env n : string),
     i <> j ->
     nth_error (processed (cfg_docker_name cfg) all_environments cs) i = Some c1 ->
     nth_error (processed (cfg_docker_name cfg) all_environments cs) j = Some c2 ->
     container_key (cfg_docker_name cfg) c1 = (env, Some n) ->
     container_key (cfg_docker_name cfg) c2 = (env, Some n) ->
     (exists e, get_containers_status cfg all_environments cs = Err e) /\
     ((forall c, c ∈ processed (cfg_docker_name cfg) all_environments cs ->
         container_name c <> None) ->
      exists env' n', get_containers_status cfg all_environments cs =
                      Err (ValueError env' n'))).
Proof.
  assert (Hok : forall r, get_containers_status cfg all_environments cs = Ok r ->
     NoDup (map (container_key (cfg_docker_name cfg))
              (processed (cfg_docker_name cfg) all_environments cs))).
  { intros r Hr. destruct (status_ok_collect _ _ _ _ Hr) as (m0 & Hc).
    by destruct (collect_ok_unique _ _ _ _ _ Hc). }
  split; [exact Hok|].
  intros i j c1 c2 env n Hij Hi Hj Hk1 Hk2.
  assert (Hnot : forall r, get_containers_status cfg all_environments cs <> Ok r).
  { intros r Hr. apply Hok, NoDup_ListNoDup in Hr.
    apply (proj1 (NoDup_nth_error _)) with (i := i) (j := j) in Hr; [done| |].
    - rewrite length_map. apply nth_error_Some. congruence.
    - rewrite (nth_error_map_some _ _ _ _ Hi), (nth_error_map_some _ _ _ _ Hj).
      congruence. }
  destruct (get_containers_status cfg all_environments cs) as [r|e] eqn:Hs;
    [by destruct (Hnot r)|].
  split; [by exists e|].
  intros Hwf. destruct e as [env' n'|]; [by exists env', n'|].
  apply status_err_collect, collect_index_error in Hs as (c & Hin & Hn).
  by destruct (Hwf c Hin).
Qed.

(** Witness: two instances of [web] in [dev]. *)
Lemma duplicate_name_aborts_witness :
  (exists e, get_containers_status cfg_dev false [dup_web_1; dup_web_2] = Err e) /\
  exists env' n', get_containers_status cfg_dev false [dup_web_1; dup_web_2] =
                  Err (ValueError env' n').
Proof.
  destruct (proj2 (duplicate_name_aborts cfg_dev false [dup_web_1; dup_web_2])
              0 1 dup_web_1 dup_web_2 "dev" "web") as [H1 H2].
  - lia.
  - reflexivity.
  - reflexivity.
  - reflexivity.
  - reflexivity.
  - split; [exact H1|]. apply H2.
    intros c Hin. vm_compute in Hin.
    apply elem_of_cons in Hin as [->|Hin]; [discriminate|].
    apply elem_of_cons in Hin as [->|Hin]; [discriminate|].
    by apply not_elem_of_nil in Hin.
Defined.

(** C2 counterexample: [web] is listed twice in [dev], but a record
    without [_] in its instance name comes first, and the aggregation
    raises [IndexError], not the duplicate-container error. *)
Lemma duplicate_after_bare_name_is_index_error :
  container_key "web" dup_web_1 = container_key "web" dup_web_2 /\
  container_name dup_web_1 = Some "web" /\
  get_containers_status cfg_dev false [bare_dev; dup_web_1; dup_web_2] = Err IndexError.
Proof. vm_compute. repeat split. Qed.

(** C5: the aggregated map always has the scope environment, and with
    [all_environments] false the function returns exactly its sub-map
    (with it true, the whole map). *)
Theorem current_env_present (cfg : kubetools_config) (all_environments : bool)
    (cs : list docker_container) :
  (forall m, aggregate cfg all_environments cs = Ok m -> is_Some (m !! cfg_env cfg)) /\
  (forall r, get_containers_status cfg all_environments cs = Ok r ->
     exists m cm, aggregate cfg all_environments cs = Ok m /\
       m !! cfg_env cfg = Some cm /\
       r = if all_environments then AllEnvs m else CurrentEnv cm).
Proof.
  assert (Hpres : forall m, aggregate cfg all_environments cs = Ok m ->
            is_Some (m !! cfg_env cfg)).
  { intros m Hm. destruct (aggregate_ok _ _ _ _ Hm) as (m0 & _ & ->).
    rewrite lookup_fmap.
    destruct (ensure_current_present (cfg_env cfg) m0) as [cm Hcm].
    rewrite Hcm. by eexists. }
  split; [exact Hpres|].
  intros r Hr. unfold get_containers_status in Hr.
  destruct (aggregate cfg all_environments cs) as [m|] eqn:Hagg; [|done].
  destruct (Hpres m eq_refl) as [cm Hcm].
  exists m, cm. split; [done|]. split; [done|].
  destruct all_environments; injection Hr as <-; [done|].
  by rewrite Hcm.
Qed.

(** Witness: no live container at all. *)
Lemma current_env_present_witness :
  is_Some (match aggregate cfg_dev false [] with Ok m => m | Err _ => ∅ end !! "dev") /\
  exists m cm, aggregate cfg_dev false [] = Ok m /\ m !! "dev" = Some cm /\
    get_containers_status cfg_dev false [] = Ok (CurrentEnv cm).
Proof.
  split.
  - apply (proj1 (current_env_present cfg_dev false [])). vm_compute. reflexivity.
  - destruct (proj2 (current_env_present cfg_dev false [])
                (match get_containers_status cfg_dev false [] with
                 | Ok r => r | Err _ => AllEnvs ∅ end))
      as (m & cm & H1 & H2 & H3).
    + vm_compute. reflexivity.
    + exists m, cm. split; [exact H1|]. split; [exact H2|].
      rewrite <- H3. vm_compute. reflexivity.
Defined.

(** C6: for a record without environment label, the fallback removes
    every occurrence of the project name from the compose project, not
    just the prefix: [web] followed by [webtest] resolves to [test]. *)
Theorem legacy_env_removes_every_occurrence :
  c_project legacy_webtest = "web" ++ "webtest" /\
  c_env_label legacy_webtest = None /\
  resolve_env "web" legacy_webtest = "test".
Proof. vm_compute. repeat split. Qed.

(** C7 counterexample: a record without environment label whose compose
    project is exactly the project name resolves to the environment [""];
    no error is raised and the all-environments map has an entry [""]. *)
Lemma fallback_to_empty_env_does_not_fail :
  c_env_label legacy_bare = None /\
  resolve_env "web" legacy_bare = "" /\
  exists m, get_containers_status cfg_dev true [legacy_bare] = Ok (AllEnvs m) /\
    is_Some (m !! "").
Proof.
  split; [reflexivity|]. split; [reflexivity|].
  eexists. split; [vm_compute; reflexivity|].
  vm_compute. by eexists.
Qed.

(** C7 (as amended): environment resolution never fails. Whenever every
    processed record has a [_]-separated instance name and no two share
    an (environment, logical name) key, aggregation returns normally and
    every processed record is in the map under its resolved environment,
    which without a usable label is the fallback value, possibly [""]. *)
Theorem resolution_never_aborts (cfg : kubetools_config) (all_environments : bool)
    (cs : list docker_container) :
  (forall c, c ∈ processed (cfg_docker_name cfg) all_environments cs ->
     container_name c <> None) ->
  NoDup (map (container_key (cfg_docker_name cfg))
           (processed (cfg_docker_name cfg) all_environments cs)) ->
  exists m, aggregate cfg all_environments cs = Ok m /\
    forall c n, c ∈ processed (cfg_docker_name cfg) all_environments cs ->
      container_name c = Some n ->
      exists cm r, m !! resolve_env (cfg_docker_name cfg) c = Some cm /\
        cm !! n = Some r /\ id r = Some (c_id c).
Proof.
  intros Hwf Hnd.
  destruct (collect_succeeds (cfg_docker_name cfg) all_environments cs ∅)
    as [m0 Hc]; [|done|].
  { intros c Hin. destruct (container_name c) as [n|] eqn:Hn;
      [|by destruct (Hwf c Hin)].
    exists n. split; [done|]. by rewrite lookup_empty. }
  eexists. split; [unfold aggregate; by rewrite Hc|].
  intros c n Hin Hn.
  pose proof (collect_contains _ _ _ _ _ _ _ Hc Hin Hn) as Hl.
  destruct (m0 !! resolve_env (cfg_docker_name cfg) c) as [cm0|] eqn:Hm0;
    [|simpl in Hl; by rewrite lookup_empty in Hl].
  simpl in Hl.
  exists (fill_env (cfg_all_containers cfg) cm0).
  destruct (fill_env_present (cfg_all_containers cfg) cm0 n) as [r Hr];
    [by eexists|].
  exists r. split; [|split; [done|]].
  - rewrite lookup_fmap, (ensure_current_some _ _ _ _ Hm0). done.
  - pose proof (fill_env_core (cfg_all_containers cfg) cm0 n) as Hcore.
    rewrite Hr, Hl in Hcore. simpl in Hcore. unfold core in Hcore.
    simpl in Hcore. by injection Hcore.
Qed.

(** Witness: the legacy record whose environment falls back to [""]. *)
Lemma resolution_never_aborts_witness :
  exists m, aggregate cfg_dev true [legacy_bare] = Ok m /\
    exists cm r, m !! "" = Some cm /\ cm !! "web" = Some r /\
      id r = Some "web_web_1".
Proof.
  destruct (resolution_never_aborts cfg_dev true [legacy_bare]) as (m & Hm & Hall).
  - intros c Hin. vm_compute in Hin.
    apply elem_of_cons in Hin as [->|Hin]; [discriminate|].
    by apply not_elem_of_nil in Hin.
  - vm_compute. apply NoDup_singleton.
  - exists m. split; [exact Hm|].
    apply (Hall legacy_bare "web"); [vm_compute; by left|reflexivity].
Defined.

(** C10 counterexample: with [all_environments], a container of another
    compose project whose instance name has no [_] is skipped before its
    name is split, and the aggregation returns normally. *)
Lemma bare_name_of_other_project_is_skipped :
  container_name bare_other = None /\
  exists r, get_containers_status cfg_dev true [bare_other] = Ok r.
Proof. split; [reflexivity|]. eexists. vm_compute. reflexivity. Qed.

(** C10 (as amended): a processed record (one not skipped by the
    all-environments project filter) whose instance name has no [_]
    makes the aggregation fail; the error is [IndexError] whenever the
    processed records before it have [_]-separated names and distinct
    keys (otherwise an earlier duplicate raises first). A record skipped
    by the filter never causes this failure: adding one anywhere to the
    listing leaves the result unchanged. *)
Theorem bare_name_aborts (cfg : kubetools_config) (all_environments : bool)
    (cs pre post : list docker_container) (c : docker_container) :
  processed (cfg_docker_name cfg) all_environments cs = (pre ++ c :: post)%list ->
  container_name c = None ->
  (exists e, get_containers_status cfg all_environments cs = Err e) /\
  ((forall c', c' ∈ pre -> container_name c' <> None) ->
   NoDup (map (container_key (cfg_docker_name cfg)) pre) ->
   get_containers_status cfg all_environments cs = Err IndexError) /\
  (forall l1 l2 s, skipped (cfg_docker_name cfg) all_environments s = true ->
   get_containers_status cfg all_environments (l1 ++ s :: l2)%list =
   get_containers_status cfg all_environments (l1 ++ l2)%list).
Proof.
  intros Hp Hn.
  assert (Hskip : forall c', c' ∈ (pre ++ c :: post)%list ->
            skipped (cfg_docker_name cfg) all_environments c' = false).
  { intros c' Hin. rewrite <- Hp in Hin. by eapply processed_not_skipped. }
  split; [|split].
  - destruct (get_containers_status cfg all_environments cs) as [r|e] eqn:Hs;
      [|by exists e].
    destruct (status_ok_collect _ _ _ _ Hs) as (m0 & Hc).
    destruct (collect_ok_unique _ _ _ _ _ Hc) as [Hfresh _].
    destruct (Hfresh c) as (n & Hn' & _); [rewrite Hp; set_solver|congruence].
  - intros Hwf Hnd. apply status_err_collect.
    rewrite <- collect_processed, Hp, collect_app.
    assert (Hpre : processed (cfg_docker_name cfg) all_environments pre = pre).
    { apply processed_id. intros c' Hin. apply Hskip. set_solver. }
    destruct (collect_succeeds (cfg_docker_name cfg) all_environments pre ∅)
      as [m' Hm']; rewrite ?Hpre; [|done|].
    + intros c' Hin. destruct (container_name c') as [n|] eqn:Hn';
        [|by destruct (Hwf c' Hin)].
      exists n. split; [done|]. by rewrite lookup_empty.
    + rewrite Hm'. simpl. rewrite (Hskip c) by set_solver. by rewrite Hn.
  - intros l1 l2 s Hs. unfold get_containers_status, aggregate.
    rewrite <- (collect_processed _ _ (l1 ++ s :: l2)%list),
            <- (collect_processed _ _ (l1 ++ l2)%list).
    unfold processed. rewrite !filter_app, filter_cons.
    case_decide; [congruence|done].
Qed.

(** Witness: a single listed container of [dev] named [standalone]; in
    the all-environments listing, adding the skipped [bare_other] after it
    changes nothing. *)
Lemma bare_name_aborts_witness :
  get_containers_status cfg_dev false [bare_dev] = Err IndexError /\
  get_containers_status cfg_dev true [bare_dev; bare_other] =
    get_containers_status cfg_dev true [bare_dev].
Proof.
  split.
  - apply (proj1 (proj2 (bare_name_aborts cfg_dev false [bare_dev] [] [] bare_dev
                           eq_refl eq_refl))).
    + intros c' Hin. by apply not_elem_of_nil in Hin.
    + constructor.
  - apply (proj2 (proj2 (bare_name_aborts cfg_dev true [bare_dev] [] [] bare_dev
                           eq_refl eq_refl)) [bare_dev] [] bare_other).
    reflexivity.
Defined.

End StatusClaims.

(** ** Lemmas on guarded removal *)

Module DeployFacts.
Import Deploy.

(** Computations that never raise. *)
Definition never_fails {A} (m : M A) : Prop :=
  forall tr, exists a tr', m tr = (inl a, tr').

Create HintDb never_fails.

Lemma ret_never_fails {A} (a : A) : never_fails (ret a).
Proof. intros tr. by exists a, tr. Qed.

Lemma emit_never_fails (e : event) : never_fails (emit e).
Proof. intros tr. by eexists _, _. Qed.

Lemma bind_never_fails {A B} (m : M A) (f : A -> M B) :
  never_fails m -> (forall a, never_fails (f a)) -> never_fails (bind m f).
Proof.
  intros Hm Hf tr. unfold bind. destruct (Hm tr) as (a & tr' & ->). apply Hf.
Qed.

Lemma delete_objects_never_fails (k : kind) (os : list kube_object) :
  never_fails (delete_objects k os).
Proof.
  induction os as [|o os IH]; simpl.
  - apply ret_never_fails.
  - apply bind_never_fails; [apply emit_never_fails|intros _; exact IH].
Qed.

#[local] Hint Resolve ret_never_fails emit_never_fails bind_never_fails
  delete_objects_never_fails : never_fails.

Lemma if_never_fails {A} (b : bool) (m1 m2 : M A) :
  never_fails m1 -> never_fails m2 -> never_fails (if b then m1 else m2).
Proof. by destruct b. Qed.

#[local] Hint Resolve if_never_fails : never_fails.

(** The listing step: one [EvList] call; the only error is [NotFound]. *)
Lemma get_objects_trace (object_type : string) (k : kind) (live : cluster)
    (remove_all : bool) (app_names : list string) (check_leftovers : bool)
    (tr : list event) :
  snd (get_objects_to_delete object_type k live remove_all app_names check_leftovers tr)
    = (tr ++ [EvList k])%list /\
  forall e, fst (get_objects_to_delete object_type k live remove_all app_names
                   check_leftovers tr) = inr e ->
    exists L, e = NotFound object_type L.
Proof.
  unfold get_objects_to_delete, bind, emit. simpl.
  destruct remove_all; [done|]. destruct check_leftovers; [|done].
  case_decide; simpl; [done|]. split; [done|]. intros e He.
  injection He as <-. by eexists.
Qed.

Lemma get_objects_checked (object_type : string) (k : kind) (live : cluster)
    (app_names : list string) (tr : list event) :
  get_objects_to_delete object_type k live false app_names true tr =
  (let leftover_app_names : gset string :=
     list_to_set app_names ∖
       list_to_set (omap obj_app_label (List.filter (label_in app_names) (live k))) in
   if decide (leftover_app_names = ∅)
   then inl (List.filter (label_in app_names) (live k))
   else inr (NotFound object_type leftover_app_names),
   (tr ++ [EvList k])%list).
Proof.
  unfold get_objects_to_delete, bind, emit. simpl. by case_decide.
Qed.

Lemma get_objects_unchecked (object_type : string) (k : kind) (live : cluster)
    (app_names : list string) (tr : list event) :
  get_objects_to_delete object_type k live false app_names false tr =
  (inl (List.filter (label_in app_names) (live k)), (tr ++ [EvList k])%list).
Proof. done. Qed.

(** Membership in the leftover set of line 188. *)
Lemma leftover_elem (app_names : list string) (objs : list kube_object) (n : string) :
  n ∈ ((list_to_set app_names : gset string) ∖
         list_to_set (omap obj_app_label (List.filter (label_in app_names) objs))) <->
  n ∈ app_names /\ ~ (exists o, o ∈ objs /\ obj_app_label o = Some n).
Proof.
  rewrite elem_of_difference, !elem_of_list_to_set, list_elem_of_omap.
  split; intros [Hn Hno]; split; try done; intros (o & Ho & Hl); apply Hno.
  - exists o. split; [|done]. apply list_elem_of_In, filter_In.
    split; [by apply list_elem_of_In|]. unfold label_in. rewrite Hl.
    by apply bool_decide_eq_true.
  - exists o. split; [|done].
    apply list_elem_of_In, filter_In in Ho as [Ho _]. by apply list_elem_of_In.
Qed.

Lemma checked_fails (object_type : string) (k : kind) (live : cluster)
    (app_names : list string) (tr : list event) :
  (exists n, n ∈ app_names /\ ~ matched live k n) ->
  exists L, get_objects_to_delete object_type k live false app_names true tr =
            (inr (NotFound object_type L), (tr ++ [EvList k])%list).
Proof.
  intros (n & Hn & Hnm). rewrite get_objects_checked. simpl.
  case_decide as HL; [|by eexists].
  exfalso. assert (Hin : n ∈ ((list_to_set app_names : gset string) ∖
    list_to_set (omap obj_app_label (List.filter (label_in app_names) (live k))))).
  { by apply leftover_elem. }
  rewrite HL in Hin. set_solver.
Qed.

Lemma checked_ok (object_type : string) (k : kind) (live : cluster)
    (app_names : list string) (tr : list event) :
  (forall n, n ∈ app_names -> matched live k n) ->
  get_objects_to_delete object_type k live false app_names true tr =
  (inl (List.filter (label_in app_names) (live k)), (tr ++ [EvList k])%list).
Proof.
  intros Hall. rewrite get_objects_checked. simpl.
  case_decide as HL; [done|]. exfalso.
  apply set_choose_L in HL as [n Hin]. apply leftover_elem in Hin as [Hn Hnm].
  by apply Hnm, Hall.
Qed.

(** What follows the three listings in [remove] never raises. *)
Lemma remove_tail_never_fails (yes : bool) (s d j : list kube_object) :
  never_fails
    (if negb (nonempty s || nonempty d || nonempty j) then ret tt
     else bind (if yes then ret tt else emit EvConfirm) (fun _ =>
          bind (delete_objects KService s) (fun _ =>
          bind (delete_objects KDeployment d) (fun _ =>
          delete_objects KJob j)))).
Proof. auto 10 with never_fails. Qed.

(** Every error of [remove] comes with a trace free of deletions. *)
Lemma remove_error_no_delete (live : cluster) (remove_all yes : bool)
    (app_names : list string) (e : click_error) (tr : list event) :
  remove live remove_all yes app_names [] = (inr e, tr) ->
  (tr = [] /\ ((e = MissingTargets /\ nonempty app_names = false /\ remove_all = false) \/
               (e = BothTargets /\ nonempty app_names = true /\ remove_all = true))) \/
  ((exists L, e = NotFound "Services" L) /\ tr = [EvList KService]) \/
  ((exists L, e = NotFound "Deployments" L) /\ tr = [EvList KService; EvList KDeployment]).
Proof.
  unfold remove.
  destruct (negb (nonempty app_names) && negb remove_all) eqn:H1.
  { intros H; injection H as <- <-. left. split; [done|]. left.
    apply andb_true_iff in H1 as [H1 H2].
    apply negb_true_iff in H1, H2. auto. }
  destruct (nonempty app_names && remove_all) eqn:H2.
  { intros H; injection H as <- <-. left. split; [done|]. right.
    apply andb_true_iff in H2 as [? ?]. auto. }
  unfold bind at 1.
  pose proof (get_objects_trace "Services" KService live remove_all app_names true [])
    as [Hs1 Hs2].
  destruct (get_objects_to_delete "Services" _ _ _ _ _ []) as [[s|e1] tr1].
  2:{ intros H; injection H as <- <-. right; left. simpl in Hs1, Hs2. by eauto. }
  simpl in Hs1. subst tr1. unfold bind at 1.
  pose proof (get_objects_trace "Deployments" KDeployment live remove_all app_names true
                [EvList KService]) as [Hd1 Hd2].
  destruct (get_objects_to_delete "Deployments" _ _ _ _ _ _) as [[d|e2] tr2].
  2:{ intros H; injection H as <- <-. right; right. simpl in Hd1, Hd2. by eauto. }
  unfold bind at 1.
  destruct (get_objects_to_delete "Jobs" _ _ _ _ _ _) as [[j|e3] tr3] eqn:Hj.
  2:{ exfalso. destruct remove_all.
      - discriminate.
      - rewrite get_objects_unchecked in Hj. discriminate. }
  intros H. destruct (remove_tail_never_fails yes s d j tr3) as (a & tr' & Ht).
  congruence.
Qed.

End DeployFacts.

(** ** Claims on guarded removal *)

Module DeployClaims.
Import Deploy DeployFacts Examples.

(** C3: listing for removal by explicit names with the leftover check
    fails exactly when some requested name labels no live object; the
    error carries exactly the set of those names; the listing itself makes
    only the one list call, and no error of [remove] is raised after a
    deletion. *)
Theorem leftover_check_exact (object_type : string) (k : kind) (live : cluster)
    (app_names : list string) (tr : list event) :
  snd (get_objects_to_delete object_type k live false app_names true tr)
    = (tr ++ [EvList k])%list /\
  ((exists L, fst (get_objects_to_delete object_type k live false app_names true tr)
                = inr (NotFound object_type L)) <->
   exists n, n ∈ app_names /\ ~ matched live k n) /\
  (forall L, fst (get_objects_to_delete object_type k live false app_names true tr)
               = inr (NotFound object_type L) ->
     forall n, n ∈ L <-> n ∈ app_names /\ ~ matched live k n) /\
  (forall remove_all yes e tr',
     remove live remove_all yes app_names [] = (inr e, tr') ->
     forall k' n, EvDelete k' n ∉ tr').
Proof.
  assert (Hset : forall L, fst (get_objects_to_delete object_type k live false
                                  app_names true tr) = inr (NotFound object_type L) ->
            forall n, n ∈ L <-> n ∈ app_names /\ ~ matched live k n).
  { intros L HL n. rewrite get_objects_checked in HL. simpl in HL.
    case_decide; [done|]. injection HL as <-. apply leftover_elem. }
  split; [by destruct (get_objects_trace object_type k live false app_names true tr)|].
  split; [split|split; [exact Hset|]].
  - intros [L HL]. pose proof (Hset L HL) as HL'.
    rewrite get_objects_checked in HL. simpl in HL.
    case_decide as He; [done|]. injection HL as <-.
    apply set_choose_L in He as [n Hn]. exists n. by apply HL'.
  - intros Hn. destruct (checked_fails object_type k live app_names tr Hn) as [L HL].
    exists L. by rewrite HL.
  - intros remove_all yes e tr' Hr k' n Hin.
    destruct (remove_error_no_delete _ _ _ _ _ _ Hr)
      as [[-> _]|[[_ ->]|[_ ->]]]; set_solver.
Qed.

(** Witness: [remove] of [web] while only [api] is live. *)
Lemma leftover_check_exact_witness :
  fst (get_objects_to_delete "Services" KService live_api false ["web"] true [])
    = inr (NotFound "Services" {["web"]}) /\
  (forall n, n ∈ ({["web"]} : gset string) <-> n ∈ ["web"] /\ ~ matched live_api KService n) /\
  forall e tr', remove live_api false true ["web"] [] = (inr e, tr') ->
    forall k' n, EvDelete k' n ∉ tr'.
Proof.
  assert (Hr : fst (get_objects_to_delete "Services" KService live_api false ["web"] true [])
                 = inr (NotFound "Services" {["web"]})).
  { vm_compute. reflexivity. }
  destruct (leftover_check_exact "Services" KService live_api ["web"] [])
    as (_ & _ & H3 & H4).
  split; [exact Hr|]. split; [exact (H3 _ Hr)|].
  intros e tr' He. exact (H4 false true e tr' He).
Defined.

(** C4: [remove] needs exactly one of explicit names and [--all]: with
    neither or both it raises before any cluster call (empty trace); with
    exactly one, neither of these two errors is raised. *)
Theorem remove_exactly_one_target (live : cluster) (remove_all yes : bool)
    (app_names : list string) :
  (app_names = [] -> remove_all = false ->
     remove live remove_all yes app_names [] = (inr MissingTargets, [])) /\
  (app_names <> [] -> remove_all = true ->
     remove live remove_all yes app_names [] = (inr BothTargets, [])) /\
  (xorb (nonempty app_names) remove_all = true ->
     forall e tr, remove live remove_all yes app_names [] = (inr e, tr) ->
       e <> MissingTargets /\ e <> BothTargets).
Proof.
  split; [intros -> ->; done|]. split.
  - intros Hn ->. destruct app_names as [|a l]; [done|]. reflexivity.
  - intros Hx e tr Hr.
    destruct (remove_error_no_delete _ _ _ _ _ _ Hr)
      as [[_ [(-> & Hn & Ha)|(-> & Hn & Ha)]]|[[[L ->] _]|[[L ->] _]]];
      [rewrite Hn, Ha in Hx; done|rewrite Hn, Ha in Hx; done|done|done].
Qed.

(** Witness: neither, both, and names only. *)
Lemma remove_exactly_one_target_witness :
  remove live_api false true [] [] = (inr MissingTargets, []) /\
  remove live_api true true ["api"] [] = (inr BothTargets, []) /\
  forall e tr, remove live_api false true ["web"] [] = (inr e, tr) ->
    e <> MissingTargets /\ e <> BothTargets.
Proof.
  destruct (remove_exactly_one_target live_api false true []) as [H1 _].
  destruct (remove_exactly_one_target live_api true true ["api"]) as (_ & H2 & _).
  destruct (remove_exactly_one_target live_api false true ["web"]) as (_ & _ & H3).
  split; [by apply H1|]. split; [apply H2; [discriminate|reflexivity]|].
  apply H3. reflexivity.
Defined.

(** C9: [remove] by names checks leftovers among services and deployments
    but not among jobs: an unmatched name among live services (or, after
    the services pass, among deployments) raises [NotFound], while once
    every name matches a service and a deployment [remove] succeeds
    whatever the live jobs are; the jobs listing never raises. *)
Theorem jobs_skip_leftover_check (live : cluster) (yes : bool)
    (app_names : list string) :
  app_names <> [] ->
  ((exists n, n ∈ app_names /\ ~ matched live KService n) ->
     exists L tr, remove live false yes app_names [] = (inr (NotFound "Services" L), tr)) /\
  ((forall n, n ∈ app_names -> matched live KService n) ->
   (exists n, n ∈ app_names /\ ~ matched live KDeployment n) ->
     exists L tr, remove live false yes app_names [] = (inr (NotFound "Deployments" L), tr)) /\
  ((forall n, n ∈ app_names -> matched live KService n /\ matched live KDeployment n) ->
     exists tr, remove live false yes app_names [] = (inl tt, tr)) /\
  (forall tr, fst (get_objects_to_delete "Jobs" KJob live false app_names false tr)
                = inl (List.filter (label_in app_names) (live KJob))).
Proof.
  intros Hne.
  assert (Hnn : nonempty app_names = true) by (destruct app_names; done).
  unfold remove. rewrite Hnn. simpl.
  split; [|split; [|split]].
  - intros Hs. destruct (checked_fails "Services" KService live app_names [] Hs) as [L HL].
    exists L. eexists. unfold bind at 1. rewrite HL. reflexivity.
  - intros Hs Hd. unfold bind at 1. rewrite (checked_ok _ _ _ _ _ Hs).
    destruct (checked_fails "Deployments" KDeployment live app_names ([] ++ [EvList KService])%list Hd)
      as [L HL].
    exists L. eexists. unfold bind at 1. rewrite HL. reflexivity.
  - intros Hall. unfold bind at 1.
    rewrite checked_ok by (intros n Hn; by apply Hall).
    unfold bind at 1. rewrite checked_ok by (intros n Hn; by apply Hall).
    unfold bind at 1. rewrite get_objects_unchecked.
    edestruct (remove_tail_never_fails yes
      (List.filter (label_in app_names) (live KService))
      (List.filter (label_in app_names) (live KDeployment))
      (List.filter (label_in app_names) (live KJob))) as ([] & tr' & Ht).
    exists tr'. exact Ht.
  - intros tr. reflexivity.
Qed.

(** Witness: [api] is a live service and deployment; no job is live. *)
Lemma jobs_skip_leftover_check_witness :
  (exists L tr, remove live_api false true ["web"] [] = (inr (NotFound "Services" L), tr)) /\
  exists tr, remove live_api false true ["api"] [] = (inl tt, tr).
Proof.
  destruct (jobs_skip_leftover_check live_api true ["web"]) as (H1 & _); [discriminate|].
  destruct (jobs_skip_leftover_check live_api true ["api"]) as (_ & _ & H3 & _);
    [discriminate|].
  split.
  - apply H1. exists "web". split; [by left|]. intros (o & Ho & Hl).
    apply list_elem_of_singleton in Ho as ->. discriminate.
  - apply H3. intros n Hn. apply list_elem_of_singleton in Hn as ->.
    split; eexists; split; [by left|reflexivity|by left|reflexivity].
Defined.

End DeployClaims.

(** ** Claims on the process runner *)

Module ProcessClaims.
Import Process.



End ProcessClaims.

(** ** Further properties of the code *)

Module OutputFacts.
Import Output.

Lemma skip_params_length l : length (skip_params l) <= length l.
Proof. induction l as [|c l IH]; simpl; [lia|]. destruct (is_param c); simpl; lia. Qed.

Lemma skip_inters_length l : length (skip_inters l) <= length l.
Proof. induction l as [|c l IH]; simpl; [lia|]. destruct (is_inter c); simpl; lia. Qed.

Lemma csi_rest_length l r : csi_rest l = Some r -> length r < length l.
Proof.
  unfold csi_rest. pose proof (skip_params_length l).
  pose proof (skip_inters_length (skip_params l)).
  destruct (skip_inters (skip_params l)) as [|c r'] eqn:E; [done|].
  destruct (is_final c); [|done]. intros [= <-]. simpl in *. lia.
Qed.

Lemma match_at_length l r : match_at l = Some r -> 2 + length r <= length l.
Proof.
  destruct l as [|c l]; simpl; [done|].
  destruct (c =? 155)%Z.
  { intros H. apply csi_rest_length in H. lia. }
  destruct (c =? 27)%Z; [|done].
  destruct l as [|c' l]; [done|]. destruct (c' =? 91)%Z; [|done].
  intros H. apply csi_rest_length in H. simpl. lia.
Qed.

Lemma sub_fuel_irrel f1 f2 l :
  length l <= f1 -> length l <= f2 -> sub_fuel f1 l = sub_fuel f2 l.
Proof.
  revert f2 l. induction f1 as [|f1 IH]; intros f2 l H1 H2.
  - destruct l; simpl in *; [by destruct f2|lia].
  - destruct f2 as [|f2]; [destruct l; simpl in *; [done|lia]|].
    destruct l as [|c l]; [done|]. simpl in H1, H2. cbn [sub_fuel].
    destruct (match_at (c :: l)) as [rest|] eqn:E.
    + apply match_at_length in E. simpl in E. apply IH; lia.
    + f_equal. apply IH; lia.
Qed.

(** Any fuel at least the length of the text gives [re.sub]'s result. *)
Lemma sub_fuel_enough f l : length l <= f -> sub_fuel f l = strip_ansi l.
Proof. intros H. by apply sub_fuel_irrel. Qed.

Lemma strip_ansi_nil : strip_ansi [] = [].
Proof. done. Qed.

Lemma strip_ansi_cons c l :
  strip_ansi (c :: l) =
    match match_at (c :: l) with
    | Some rest => strip_ansi rest
    | None => c :: strip_ansi l
    end.
Proof.
  unfold strip_ansi at 1. simpl length. cbn [sub_fuel].
  destruct (match_at (c :: l)) as [rest|] eqn:E; [|done].
  apply sub_fuel_enough. apply match_at_length in E. simpl in E. lia.
Qed.

Lemma introducer_classes x :
  introducer x -> is_param x = false /\ is_inter x = false /\ is_final x = false.
Proof. intros [-> | ->]; done. Qed.

Lemma skip_params_app l x r :
  is_param x = false -> skip_params (l ++ x :: r) = (skip_params l ++ x :: r)%list.
Proof.
  intros Hx. induction l as [|c l IH]; simpl; [by rewrite Hx|].
  destruct (is_param c); done.
Qed.

Lemma skip_inters_app l x r :
  is_inter x = false -> skip_inters (l ++ x :: r) = (skip_inters l ++ x :: r)%list.
Proof.
  intros Hx. induction l as [|c l IH]; simpl; [by rewrite Hx|].
  destruct (is_inter c); done.
Qed.

Lemma csi_rest_app l x r :
  introducer x ->
  csi_rest (l ++ x :: r) = option_map (fun t => (t ++ x :: r)%list) (csi_rest l).
Proof.
  intros Hx. destruct (introducer_classes x Hx) as (Hp & Hi & Hf).
  unfold csi_rest. rewrite skip_params_app, skip_inters_app by done.
  destruct (skip_inters (skip_params l)) as [|c t]; simpl.
  - by rewrite Hf.
  - by destruct (is_final c).
Qed.

Lemma match_at_app l x r :
  l <> [] -> introducer x ->
  match_at (l ++ x :: r) = option_map (fun t => (t ++ x :: r)%list) (match_at l).
Proof.
  intros Hl Hx. destruct l as [|c l]; [done|]. simpl.
  destruct (c =? 155)%Z; [by apply csi_rest_app|].
  destruct (c =? 27)%Z; [|done].
  destruct l as [|c' l]; simpl.
  - destruct Hx as [-> | ->]; done.
  - destruct (c' =? 91)%Z; [by apply csi_rest_app|done].
Qed.

(** Stripping splits at an escape introducer. *)
Lemma strip_ansi_app pre x post :
  introducer x ->
  strip_ansi (pre ++ x :: post) = (strip_ansi pre ++ strip_ansi (x :: post))%list.
Proof.
  intros Hx. remember (length pre) as n eqn:Hn.
  revert pre Hn. induction n as [n IH] using lt_wf_ind. intros pre Hn.
  destruct pre as [|c pre']; [done|].
  rewrite <- app_comm_cons, (strip_ansi_cons c (pre' ++ x :: post)), (strip_ansi_cons c pre').
  change (c :: pre' ++ x :: post)%list with ((c :: pre') ++ x :: post)%list.
  rewrite match_at_app by done.
  destruct (match_at (c :: pre')) as [rest|] eqn:E; simpl.
  - apply match_at_length in E. simpl in E. apply (IH (length rest)); [simpl in Hn; lia|done].
  - f_equal. apply (IH (length pre')); [simpl in Hn; lia|done].
Qed.

Lemma classes_disjoint c :
  (is_inter c = true -> is_param c = false) /\ (is_final c = true -> is_param c = false)
  /\ (is_final c = true -> is_inter c = false).
Proof.
  unfold is_param, is_inter, is_final.
  rewrite !andb_true_iff, !Z.leb_le. repeat split; intros [H1 H2];
    apply andb_false_iff; rewrite !Z.leb_gt; lia.
Qed.

Lemma skip_params_run params r :
  Forall (fun c => is_param c = true) params -> skip_params (params ++ r) = skip_params r.
Proof. induction 1 as [|c l Hc _ IH]; simpl; [done|]. by rewrite Hc. Qed.

Lemma skip_inters_run inters r :
  Forall (fun c => is_inter c = true) inters -> skip_inters (inters ++ r) = skip_inters r.
Proof. induction 1 as [|c l Hc _ IH]; simpl; [done|]. by rewrite Hc. Qed.

Lemma csi_rest_sequence params inters fin post :
  Forall (fun c => is_param c = true) params ->
  Forall (fun c => is_inter c = true) inters -> is_final fin = true ->
  csi_rest (params ++ inters ++ fin :: post) = Some post.
Proof.
  intros Hp Hi Hf. unfold csi_rest. rewrite skip_params_run by done.
  assert (skip_params (inters ++ fin :: post) = (inters ++ fin :: post)%list) as ->.
  { destruct Hi as [|c l Hc _]; simpl.
    - by rewrite (proj1 (proj2 (classes_disjoint fin)) Hf).
    - by rewrite (proj1 (classes_disjoint c) Hc). }
  rewrite skip_inters_run by done. simpl.
  rewrite (proj2 (proj2 (classes_disjoint fin)) Hf). by rewrite Hf.
Qed.

(** [s.strip('\n')] of a line without ['\n'], with or without its end. *)
Lemma drop_nl_plain L : Forall (fun c => c <> 10%Z) L -> drop_nl L = L.
Proof.
  destruct 1 as [|c l Hc _]; simpl; [done|].
  by replace (c =? 10)%Z with false by (symmetry; apply Z.eqb_neq; lia).
Qed.

Lemma strip_nl_plain L : Forall (fun c => c <> 10%Z) L -> strip_nl L = L.
Proof.
  intros H. unfold strip_nl. rewrite (drop_nl_plain L) by done.
  rewrite drop_nl_plain by (by apply Forall_rev). apply rev_involutive.
Qed.

Lemma strip_nl_line L : Forall (fun c => c <> 10%Z) L -> strip_nl (L ++ [10%Z]) = L.
Proof.
  intros H. destruct L as [|c L']; [done|]. unfold strip_nl.
  assert (c <> 10%Z) as Hc by (by inversion H).
  simpl drop_nl at 2. replace (c =? 10)%Z with false by (symmetry; apply Z.eqb_neq; lia).
  assert (Forall (fun c => c <> 10%Z) (rev (c :: L'))) as Hr by (by apply Forall_rev).
  rewrite app_comm_cons, rev_app_distr. simpl in *. rewrite drop_nl_plain by done.
  rewrite rev_app_distr. simpl. f_equal.
  apply rev_involutive.
Qed.

Lemma readline_line L s :
  Forall (fun c => c <> 10%Z) L -> readline (L ++ 10%Z :: s) = ((L ++ [10%Z])%list, s).
Proof.
  induction 1 as [|c l Hc _ IH]; [done|]. simpl.
  replace (c =? 10)%Z with false by (symmetry; apply Z.eqb_neq; lia). by rewrite IH.
Qed.

Lemma readline_last L : Forall (fun c => c <> 10%Z) L -> readline L = (L, []).
Proof.
  induction 1 as [|c l Hc _ IH]; [done|]. simpl.
  replace (c =? 10)%Z with false by (symmetry; apply Z.eqb_neq; lia). by rewrite IH.
Qed.

Lemma read_fuel_nil f : read_fuel f [] = [].
Proof. by destruct f. Qed.

Lemma option_map_cons_app (x : Z) (d : list Z) (o : option (list Z)) :
  option_map (cons x) (option_map (app d) o) = option_map (app (x :: d)) o.
Proof. by destruct o. Qed.

Ltac range_facts :=
  repeat match goal with
  | H : (_ && _) = true |- _ => apply andb_true_iff in H as [? ?]
  | H : in_range _ _ _ = true |- _ => unfold in_range in H
  | H : cont _ = true |- _ => unfold cont, in_range in H
  | H : (_ <=? _)%Z = true |- _ => apply Z.leb_le in H
  | H : (_ <? _)%Z = true |- _ => apply Z.ltb_lt in H
  | H : (_ <? _)%Z = false |- _ => apply Z.ltb_ge in H
  end.

(** Decoding goes line by line: a decodable prefix decodes on its own. *)
Lemma utf8_decode_app (l1 l2 : list Z) (d1 : list Z) :
  utf8_decode l1 = Some d1 ->
  utf8_decode (l1 ++ l2) = option_map (app d1) (utf8_decode l2).
Proof.
  remember (length l1) as n eqn:Hn. revert l1 d1 Hn.
  induction n as [n IH] using lt_wf_ind. intros l1 d1 Hn H.
  destruct l1 as [|b r]; simpl in H |- *.
  { injection H as <-. by destruct (utf8_decode l2). }
  simpl in Hn.
  destruct (b <? 128)%Z.
  { destruct (utf8_decode r) as [d|] eqn:Hr; [|done]. injection H as <-.
    rewrite (IH (length r) ltac:(lia) r d eq_refl Hr). apply option_map_cons_app. }
  destruct (in_range 194 223 b).
  { destruct r as [|b1 r1]; [done|]. simpl in Hn |- *. destruct (cont b1); [|done].
    destruct (utf8_decode r1) as [d|] eqn:Hr; [|done]. injection H as <-.
    rewrite (IH (length r1) ltac:(lia) r1 d eq_refl Hr). apply option_map_cons_app. }
  destruct (in_range 224 239 b).
  { destruct r as [|b1 [|b2 r2]]; [done|done|]. simpl in Hn |- *.
    destruct (_ && _); [|done].
    destruct (utf8_decode r2) as [d|] eqn:Hr; [|done]. injection H as <-.
    rewrite (IH (length r2) ltac:(lia) r2 d eq_refl Hr). apply option_map_cons_app. }
  destruct (in_range 240 244 b); [|done].
  destruct r as [|b1 [|b2 [|b3 r3]]]; [done|done|done|]. simpl in Hn |- *.
  destruct (_ && _ && _); [|done].
  destruct (utf8_decode r3) as [d|] eqn:Hr; [|done]. injection H as <-.
  rewrite (IH (length r3) ltac:(lia) r3 d eq_refl Hr). apply option_map_cons_app.
Qed.

(** The code point 10 only comes from the byte 10. *)
Lemma utf8_decode_no_nl (l d : list Z) :
  utf8_decode l = Some d -> Forall (fun c => c <> 10%Z) l -> Forall (fun c => c <> 10%Z) d.
Proof.
  remember (length l) as n eqn:Hn. revert l d Hn.
  induction n as [n IH] using lt_wf_ind. intros l d Hn H Hl.
  destruct l as [|b r]; simpl in H.
  { by injection H as <-. }
  simpl in Hn. apply Forall_cons in Hl as [Hb Hl].
  destruct (b <? 128)%Z.
  { destruct (utf8_decode r) as [d'|] eqn:Hr; [|done]. injection H as <-.
    constructor; [done|]. exact (IH (length r) ltac:(lia) r d' eq_refl Hr Hl). }
  destruct (in_range 194 223 b) eqn:R1.
  { destruct r as [|b1 r1]; [done|]. simpl in Hn.
    destruct (cont b1) eqn:C1; [|done].
    destruct (utf8_decode r1) as [d'|] eqn:Hr; [|done]. injection H as <-.
    apply Forall_cons in Hl as [_ Hl]. range_facts.
    constructor; [lia|]. exact (IH (length r1) ltac:(lia) r1 d' eq_refl Hr Hl). }
  destruct (in_range 224 239 b) eqn:R2.
  { destruct r as [|b1 [|b2 r2]]; [done|done|]. simpl in Hn.
    destruct (_ && _) eqn:C; [|done].
    destruct (utf8_decode r2) as [d'|] eqn:Hr; [|done]. injection H as <-.
    apply Forall_cons in Hl as [_ Hl]. apply Forall_cons in Hl as [_ Hl].
    destruct (b =? 224)%Z eqn:E; [apply Z.eqb_eq in E|apply Z.eqb_neq in E];
      range_facts; (constructor; [lia|]);
      exact (IH (length r2) ltac:(lia) r2 d' eq_refl Hr Hl). }
  destruct (in_range 240 244 b) eqn:R3; [|done].
  destruct r as [|b1 [|b2 [|b3 r3]]]; [done|done|done|]. simpl in Hn.
  destruct (_ && _ && _) eqn:C; [|done].
  destruct (utf8_decode r3) as [d'|] eqn:Hr; [|done]. injection H as <-.
  apply Forall_cons in Hl as [_ Hl]. apply Forall_cons in Hl as [_ Hl].
  apply Forall_cons in Hl as [_ Hl].
  destruct (b =? 240)%Z eqn:E; [apply Z.eqb_eq in E|apply Z.eqb_neq in E];
    range_facts; (constructor; [lia|]);
    exact (IH (length r3) ltac:(lia) r3 d' eq_refl Hr Hl).
Qed.

Lemma utf8_decode_line (L t : list Z) :
  Forall (fun c => c <> 10%Z) L -> utf8_decode L = Some t ->
  utf8_decode (L ++ [10%Z])%list = Some (t ++ [10%Z])%list /\ strip_nl (t ++ [10%Z])%list = t.
Proof.
  intros HL Ht. split.
  - by rewrite (utf8_decode_app _ _ _ Ht).
  - apply strip_nl_line. exact (utf8_decode_no_nl _ _ Ht HL).
Qed.

Lemma stream_of_cons (L : list Z) (lines : list (list Z)) (last : list Z) :
  stream_of (L :: lines) last = (L ++ 10%Z :: stream_of lines last)%list.
Proof. unfold stream_of. simpl. by rewrite <- !app_assoc. Qed.

Lemma stream_of_length (L : list Z) (lines : list (list Z)) (last : list Z) :
  length (stream_of (L :: lines) last) = S (length L + length (stream_of lines last)).
Proof. rewrite stream_of_cons, length_app. simpl. lia. Qed.

Lemma read_fuel_S (f : nat) (s line rest : list Z) :
  readline s = (line, rest) -> line <> [] ->
  read_fuel (S f) s =
    match utf8_decode line with
    | Some text => strip_ansi (strip_nl text) :: read_fuel f rest
    | None => []
    end.
Proof. intros H Hne. cbn [read_fuel]. rewrite H. by destruct line. Qed.

Lemma read_fuel_line (f : nat) (L t : list Z) (rest : list Z) :
  Forall (fun c => c <> 10%Z) L -> utf8_decode L = Some t ->
  read_fuel (S f) (L ++ 10%Z :: rest) = strip_ansi t :: read_fuel f rest.
Proof.
  intros HL Ht. destruct (utf8_decode_line L t HL Ht) as [Hd Hs].
  rewrite (read_fuel_S f _ (L ++ [10%Z]) rest) by (by rewrite readline_line || by destruct L).
  by rewrite Hd, Hs.
Qed.

Lemma read_fuel_stream lines last texts f :
  Forall (Forall (fun c => c <> 10%Z)) lines -> Forall (fun c => c <> 10%Z) last ->
  Forall2 (fun L t => utf8_decode L = Some t) (lines_of lines last) texts ->
  S (length (stream_of lines last)) <= f ->
  read_fuel f (stream_of lines last) = map strip_ansi texts.
Proof.
  intros Hl Hlast. revert f texts.
  induction Hl as [|L lines HL _ IH]; intros f texts Ht Hf.
  - destruct f as [|f]; [lia|]. unfold stream_of, lines_of in *. simpl in *.
    rewrite readline_last by done.
    destruct last as [|c last'].
    + by inversion Ht.
    + inversion Ht as [|? t ? ? Hd Hnil]; subst. inversion Hnil; subst.
      rewrite Hd, strip_nl_plain, read_fuel_nil; [done|].
      exact (utf8_decode_no_nl _ _ Hd Hlast).
  - destruct f as [|f]; [lia|]. rewrite stream_of_length in Hf.
    unfold lines_of in Ht. simpl in Ht.
    inversion Ht as [|? t ? texts' Hd Hrest]; subst.
    rewrite stream_of_cons, (read_fuel_line f L t) by done. simpl. f_equal.
    apply IH; [done|lia].
Qed.


Lemma strip_ansi_plain l :
  Forall (fun c => ~ introducer c) l -> strip_ansi l = l.
Proof.
  induction 1 as [|c l Hc _ IH]; [done|].
  rewrite strip_ansi_cons, IH. unfold introducer in Hc.
  simpl. replace (c =? 155)%Z with false by (symmetry; apply Z.eqb_neq; lia).
  by replace (c =? 27)%Z with false by (symmetry; apply Z.eqb_neq; lia).
Qed.

End OutputFacts.

Module OutputExtras.
Import Output OutputFacts.

(** Extra: text without an escape introducer (27 or 155) comes out of the
    ANSI filter unchanged. *)
Theorem strip_ansi_plain_text l :
  Forall (fun c => ~ introducer c) l -> strip_ansi l = l.
Proof. apply strip_ansi_plain. Qed.

Lemma strip_ansi_plain_text_witness :
  strip_ansi [72%Z; 105%Z] = [72%Z; 105%Z].
Proof.
  apply strip_ansi_plain_text.
  repeat constructor; unfold introducer; lia.
Defined.

(** Extra: a complete escape sequence (CSI introducer, parameter bytes,
    intermediate bytes, final byte) is cut out, and the text on both sides
    is filtered as if the sequence were not there. *)
Theorem strip_ansi_removes_sequence pre intro params inters fin post :
  (intro = [155%Z] \/ intro = [27%Z; 91%Z]) ->
  Forall (fun c => is_param c = true) params ->
  Forall (fun c => is_inter c = true) inters -> is_final fin = true ->
  strip_ansi (pre ++ intro ++ params ++ inters ++ fin :: post) =
    (strip_ansi pre ++ strip_ansi post)%list.
Proof.
  intros Hintro Hp Hi Hf.
  destruct Hintro as [-> | ->]; simpl;
    (rewrite strip_ansi_app; [|unfold introducer; lia]); f_equal;
    rewrite strip_ansi_cons; simpl; by rewrite csi_rest_sequence.
Qed.

(** [H ESC [ 3 2 m O K]: the colour code before [OK] goes. *)
Lemma strip_ansi_removes_sequence_witness :
  strip_ansi ([72] ++ [27; 91] ++ [51; 50] ++ [] ++ 109 :: [79; 75])%Z%list = [72; 79; 75]%Z.
Proof.
  rewrite (strip_ansi_removes_sequence [72]%Z [27; 91]%Z [51; 50]%Z [] 109%Z [79; 75]%Z);
    [reflexivity|by right|by repeat constructor|by constructor|reflexivity].
Defined.

(** Extra: the filter never lengthens a line. *)
Theorem strip_ansi_length l : length (strip_ansi l) <= length l.
Proof.
  remember (length l) as n eqn:Hn. revert l Hn.
  induction n as [n IH] using lt_wf_ind. intros l Hn.
  destruct l as [|c l]; [simpl; lia|]. rewrite strip_ansi_cons.
  destruct (match_at (c :: l)) as [rest|] eqn:E.
  - apply match_at_length in E. simpl in *.
    specialize (IH (length rest) ltac:(lia) rest eq_refl). lia.
  - simpl in *. specialize (IH (length l) ltac:(lia) l eq_refl). lia.
Qed.

(** Extra: one pass is not enough: removing [ESC [ m] can join an [ESC]
    before it and [[ m] after it into a new sequence, which stays in the
    output. *)
Theorem strip_ansi_single_pass :
  strip_ansi [27; 27; 91; 109; 91; 109]%Z = [27; 91; 109]%Z /\
  strip_ansi [27; 91; 109]%Z = [].
Proof. split; reflexivity. Qed.

(** Extra: [_read_command_output] splits the stream at each ['\n'] and,
    when every line decodes as UTF-8, returns every line, complete or the
    unterminated last one, decoded, without its newline and filtered; an
    empty unterminated rest adds no line. *)
Theorem read_command_output_lines lines last texts :
  Forall (Forall (fun c => c <> 10%Z)) lines -> Forall (fun c => c <> 10%Z) last ->
  Forall2 (fun L t => utf8_decode L = Some t) (lines_of lines last) texts ->
  read_command_output (stream_of lines last) = map strip_ansi texts.
Proof. intros Hl Hlast Ht. by apply read_fuel_stream. Qed.

(** [A\n\n\xc3\xa9\n] then [C] unterminated: [\xc3\xa9] decodes to U+00E9. *)
Lemma read_command_output_lines_witness :
  read_command_output [65; 10; 10; 195; 169; 10; 67]%Z = [[65]; []; [233]; [67]]%Z.
Proof.
  change [65; 10; 10; 195; 169; 10; 67]%Z with (stream_of [[65]; []; [195; 169]]%Z [67]%Z).
  rewrite (read_command_output_lines [[65]; []; [195; 169]]%Z [67]%Z [[65]; []; [233]; [67]]%Z);
    [reflexivity|repeat constructor; discriminate ..].
Defined.



Lemma join_cons_nonempty sep x xs :
  xs <> [] -> PyStr.join sep (x :: xs) = x ++ sep ++ PyStr.join sep xs.
Proof. by destruct xs. Qed.

Lemma string_append_assoc (a b c : string) : (a ++ b) ++ c = a ++ (b ++ c).
Proof. induction a as [|ch a IH]; unfold String.append; fold String.append; [done|by rewrite IH]. Qed.

Lemma join_split_arg (pre : list string) (x y : string) post :
  PyStr.join " " (pre ++ (x ++ " " ++ y)%string :: post)%list =
    PyStr.join " " (pre ++ x :: y :: post)%list.
Proof.
  induction pre as [|a pre IH]; cbn [List.app].
  - destruct post as [|p post]; [done|].
    rewrite !join_cons_nonempty by done. by rewrite !string_append_assoc.
  - rewrite !join_cons_nonempty by (by destruct pre). by rewrite IH.
Qed.

(** Extra: in captured mode the command goes to the shell as one line
    joined with spaces, so an argument containing a space cannot be told
    apart from two arguments. *)
Theorem run_process_with_spinner_joins_args shell (pre : list string) (x y : string) post :
  run_process_with_spinner shell (pre ++ (x ++ " " ++ y)%string :: post)%list =
    run_process_with_spinner shell (pre ++ x :: y :: post)%list.
Proof. unfold run_process_with_spinner. by rewrite join_split_arg. Qed.

(** Extra: an escape sequence cut before its final byte is not a match and
    stays in the line. *)
Theorem strip_ansi_keeps_unterminated (intro params : list Z) :
  (intro = [155%Z] \/ intro = [27%Z; 91%Z]) ->
  Forall (fun c => is_param c = true) params ->
  strip_ansi (intro ++ params) = (intro ++ params)%list.
Proof.
  intros Hintro Hp.
  assert (Hcsi : csi_rest params = None).
  { unfold csi_rest. rewrite <- (app_nil_r params), skip_params_run by done. done. }
  assert (Hplain : Forall (fun c => ~ introducer c) params).
  { eapply Forall_impl; [exact Hp|]. intros c Hc [-> | ->]; discriminate. }
  destruct Hintro as [-> | ->]; simpl; rewrite strip_ansi_cons; simpl; rewrite Hcsi.
  - by rewrite strip_ansi_plain.
  - rewrite strip_ansi_plain; [done|]. constructor; [|done].
    unfold introducer. lia.
Qed.

(** [ESC [ 1 2] at the end of a line. *)
Lemma strip_ansi_keeps_unterminated_witness :
  strip_ansi ([27; 91] ++ [49; 50])%Z%list = ([27; 91] ++ [49; 50])%Z%list.
Proof.
  apply strip_ansi_keeps_unterminated; [by right|by repeat constructor].
Defined.

End OutputExtras.

Module StatusExtraFacts.
Import Status StatusFacts StatusClaims.

(** The environments the loop creates: one per processed container. *)
Lemma collect_env_keys (dn : string) (all : bool) (cs : list docker_container)
    (acc m : env_map) (env : string) :
  collect dn all cs acc = Ok m ->
  (is_Some (m !! env) <->
   is_Some (acc !! env) \/ exists c, c ∈ processed dn all cs /\ resolve_env dn c = env).
Proof.
  revert acc; induction cs as [|c cs IH]; intros acc Hc; simpl in Hc.
  - injection Hc as <-. split; [by left|]. intros [?|(c & Hin & _)]; [done|].
    by apply not_elem_of_nil in Hin.
  - rewrite processed_cons.
    destruct (skipped dn all c) eqn:Hs.
    + rewrite (IH acc Hc). done.
    + destruct (container_name c) as [n|] eqn:Hn; [|done].
      destruct (default ∅ (acc !! resolve_env dn c) !! n); [done|].
      rewrite (IH _ Hc), lookup_insert_is_Some'. split.
      * intros [[<-|?]|(c' & Hin & <-)]; [right; exists c; split; [by left|done]|by left|].
        right. exists c'. split; [by right|done].
      * intros [?|(c' & Hin & <-)]; [by left; right|].
        apply elem_of_cons in Hin as [->|Hin]; [by left; left|].
        right. by exists c'.
Qed.

Lemma ensure_current_is_Some (e : string) (m : env_map) (env : string) :
  is_Some (ensure_current e m !! env) <-> e = env \/ is_Some (m !! env).
Proof.
  unfold ensure_current. destruct (m !! e) eqn:He.
  - split; [by right|]. intros [<-|?]; [by eexists|done].
  - apply lookup_insert_is_Some'.
Qed.

(** A declared container is in the completed map of its environment. *)
Lemma fill_env_declared (ds : list (string * desired_container))
    (cs : gmap string container_data) (name : string) :
  name ∈ map fst ds -> is_Some (fill_env ds cs !! name).
Proof.
  revert cs; induction ds as [|[n d] ds IH]; intros cs Hin;
    [by apply not_elem_of_nil in Hin|].
  rewrite fill_env_cons. simpl in Hin. apply elem_of_cons in Hin as [->|Hin].
  - apply fill_env_present. rewrite lookup_insert_eq. by eexists.
  - by apply IH.
Qed.

Lemma observed_true (dn : string) (all : bool) (cs : list docker_container)
    (env name : string) (c : docker_container) :
  c ∈ processed dn all cs -> container_key dn c = (env, Some name) ->
  observed dn all cs env name = true.
Proof.
  intros Hin Hk. unfold observed. apply existsb_exists. exists c.
  split; [by apply list_elem_of_In|]. by apply bool_decide_eq_true.
Qed.

(** The scope environment's map after the final loop. *)
Lemma status_current (cfg : kubetools_config) (cs : list docker_container)
    (m : gmap string container_data) :
  get_containers_status cfg false cs = Ok (CurrentEnv m) ->
  exists m0 cm0, collect (cfg_docker_name cfg) false cs ∅ = Ok m0 /\
    ensure_current (cfg_env cfg) m0 !! cfg_env cfg = Some cm0 /\
    m = fill_env (cfg_all_containers cfg) cm0.
Proof.
  unfold get_containers_status. destruct (aggregate cfg false cs) as [ma|] eqn:Ha; [|done].
  intros H. injection H as <-.
  destruct (aggregate_ok _ _ _ _ Ha) as (m0 & Hc & ->).
  destruct (ensure_current_present (cfg_env cfg) m0) as [cm0 Hcm0].
  exists m0, cm0. split; [done|]. split; [done|].
  by rewrite lookup_fmap, Hcm0.
Qed.

End StatusExtraFacts.

Module StatusExtras.
Import Status StatusFacts StatusClaims StatusExtraFacts Examples.

(** Extra: the all-environments result has exactly one entry per
    environment: the scope environment and the environment of every
    processed listed container. *)
Theorem all_envs_keys (cfg : kubetools_config) (cs : list docker_container)
    (m : env_map) (env : string) :
  get_containers_status cfg true cs = Ok (AllEnvs m) ->
  (is_Some (m !! env) <->
   env = cfg_env cfg \/
   exists c, c ∈ processed (cfg_docker_name cfg) true cs /\
     resolve_env (cfg_docker_name cfg) c = env).
Proof.
  unfold get_containers_status. destruct (aggregate cfg true cs) as [ma|] eqn:Ha; [|done].
  intros H. injection H as <-.
  destruct (aggregate_ok _ _ _ _ Ha) as (m0 & Hc & ->).
  rewrite lookup_fmap, fmap_is_Some, ensure_current_is_Some, (collect_env_keys _ _ _ _ _ _ Hc).
  rewrite lookup_empty. split.
  - intros [<-|[[? ?]|?]]; [by left|done|by right].
  - intros [<-|?]; [by left|by right; right].
Qed.

(** The legacy container of [webtest] gives that project a [test]
    environment beside the scope one. *)
Lemma all_envs_keys_witness :
  exists m, get_containers_status cfg_dev true [legacy_webtest] = Ok (AllEnvs m) /\
    is_Some (m !! "test") /\ is_Some (m !! "dev").
Proof.
  pose (m := match get_containers_status cfg_dev true [legacy_webtest] with
             | Ok (AllEnvs m) => m | _ => ∅ end).
  assert (Hs : get_containers_status cfg_dev true [legacy_webtest] = Ok (AllEnvs m))
    by (vm_compute; reflexivity).
  exists m. split; [exact Hs|]. split.
  - apply (all_envs_keys cfg_dev [legacy_webtest] m "test" Hs). right.
    exists legacy_webtest. split; [by left|vm_compute; reflexivity].
  - apply (all_envs_keys cfg_dev [legacy_webtest] m "dev" Hs). by left.
Defined.

(** Extra: the final loop keeps what the listing says about a running
    container: its status, ports, id and labels are in the result under its
    environment and logical name. *)
Theorem status_keeps_live_fields (cfg : kubetools_config) (all_environments : bool)
    (cs : list docker_container) (m : env_map) (c : docker_container) (name : string) :
  aggregate cfg all_environments cs = Ok m ->
  c ∈ processed (cfg_docker_name cfg) all_environments cs ->
  container_name c = Some name ->
  exists cm r, m !! resolve_env (cfg_docker_name cfg) c = Some cm /\ cm !! name = Some r /\
    up r = Some (String.eqb (c_status c) "running") /\ ports r = container_ports c /\
    id r = Some (c_id c) /\ labels r = Some (c_labels c).
Proof.
  intros Ha Hin Hn.
  destruct (aggregate_ok _ _ _ _ Ha) as (m0 & Hc & ->).
  pose proof (collect_contains _ _ _ _ _ _ _ Hc Hin Hn) as Hl.
  destruct (m0 !! resolve_env (cfg_docker_name cfg) c) as [cm0|] eqn:Hm0;
    [|simpl in Hl; by rewrite lookup_empty in Hl].
  simpl in Hl.
  exists (fill_env (cfg_all_containers cfg) cm0).
  destruct (fill_env_present (cfg_all_containers cfg) cm0 name) as [r Hr]; [by eexists|].
  exists r. split; [by rewrite lookup_fmap, (ensure_current_some _ _ _ _ Hm0)|].
  split; [done|].
  pose proof (fill_env_core (cfg_all_containers cfg) cm0 name) as Hcore.
  rewrite Hr, Hl in Hcore. unfold core in Hcore. simpl in Hcore.
  injection Hcore as -> -> -> ->. done.
Qed.

Lemma status_keeps_live_fields_witness :
  exists cm r, match aggregate cfg_dev false [live_web] with Ok m => m | Err _ => ∅ end
      !! "dev" = Some cm /\ cm !! "web" = Some r /\
    up r = Some true /\ id r = Some "webdev_web_1".
Proof.
  pose (m := match aggregate cfg_dev false [live_web] with Ok m => m | Err _ => ∅ end).
  assert (Ha : aggregate cfg_dev false [live_web] = Ok m) by (vm_compute; reflexivity).
  destruct (status_keeps_live_fields cfg_dev false [live_web] m live_web "web" Ha)
    as (cm & r & H1 & H2 & H3 & _ & H5 & _); [by left|reflexivity|].
  exists cm, r. rewrite Ha. split; [exact H1|]. split; [exact H2|]. split; [exact H3|exact H5].
Defined.

(** Extra: [get_container_status] gives a record for every declared
    container, and [None] exactly for a name that is neither declared nor
    running in the scope environment. *)
Theorem get_container_status_result (cfg : kubetools_config) (name : string)
    (cs : list docker_container) (o : option container_data) :
  DevUtil.get_container_status cfg name cs = Ok o ->
  (name ∈ map fst (cfg_all_containers cfg) -> is_Some o) /\
  (o = None <-> ((name ∉ map fst (cfg_all_containers cfg)) /\
                 observed (cfg_docker_name cfg) false cs (cfg_env cfg) name = false)).
Proof.
  unfold DevUtil.get_container_status.
  destruct (get_containers_status cfg false cs) as [[ma|mc]|e] eqn:Hs.
  - unfold get_containers_status in Hs. destruct (aggregate _ _ _); [done|done].
  - intros H. injection H as <-.
    destruct (status_current _ _ _ Hs) as (m0 & cm0 & Hc & Hcm0 & ->).
    assert (Hlift : forall r, cm0 !! name = Some r ->
              default ∅ (m0 !! cfg_env cfg) !! name = Some r).
    { intros r Hr. rewrite <- (ensure_current_lookup (cfg_env cfg)), Hcm0. done. }
    assert (Hdecl : name ∈ map fst (cfg_all_containers cfg) ->
              is_Some (fill_env (cfg_all_containers cfg) cm0 !! name))
      by apply fill_env_declared.
    split; [done|]. split.
    + intros Hnone. split; [intros Hd; destruct (Hdecl Hd); congruence|].
      destruct (observed _ _ _ _ _) eqn:Hobs; [|done]. exfalso.
      unfold observed in Hobs. apply existsb_exists in Hobs as (c & Hin & Hk).
      apply bool_decide_eq_true in Hk. unfold container_key in Hk.
      injection Hk as Henv Hn. apply list_elem_of_In in Hin.
      pose proof (collect_contains _ _ _ _ _ _ _ Hc Hin Hn) as Hl.
      rewrite Henv, <- (ensure_current_lookup (cfg_env cfg)), Hcm0 in Hl. simpl in Hl.
      assert (is_Some (fill_env (cfg_all_containers cfg) cm0 !! name)) as [? ?]
        by (apply fill_env_present; by eexists).
      congruence.
    + intros [Hnd Hobs]. rewrite fill_env_notin by done.
      destruct (cm0 !! name) as [r|] eqn:Hr; [|done]. exfalso.
      destruct (collect_origin _ _ _ _ _ _ _ _ Hc (Hlift r eq_refl)) as [Hnil|(c & Hin & Hk & _)].
      * rewrite lookup_empty in Hnil. simpl in Hnil. by rewrite lookup_empty in Hnil.
      * rewrite (observed_true _ _ _ _ _ c Hin Hk) in Hobs. done.
  - done.
Qed.

(** [cache] is neither declared by [cfg_dev] nor running. *)
Lemma get_container_status_result_witness :
  DevUtil.get_container_status cfg_dev "cache" [live_web] = Ok None /\
  ("cache" ∉ map fst (cfg_all_containers cfg_dev)) /\
  observed (cfg_docker_name cfg_dev) false [live_web] (cfg_env cfg_dev) "cache" = false.
Proof.
  assert (Hs : DevUtil.get_container_status cfg_dev "cache" [live_web] = Ok None)
    by (vm_compute; reflexivity).
  split; [exact Hs|].
  apply (proj2 (get_container_status_result cfg_dev "cache" [live_web] None Hs)).
  reflexivity.
Defined.

(** Extra: a published port is reported with its first host binding, an
    unpublished one is left out, and the order of the listing is kept. *)
Theorem ports_of_published (ps ps' : list (string * list string)) (l h : string) :
  ({| p_local := l; p_host := h |} ∈ ports_of ps <-> exists hs, (l, h :: hs) ∈ ps) /\
  ports_of (ps ++ ps') = (ports_of ps ++ ports_of ps')%list.
Proof.
  split.
  - induction ps as [|[l0 [|h0 hs0]] ps IH]; simpl.
    + split; [intros Hin; by apply not_elem_of_nil in Hin|].
      intros [hs Hin]; by apply not_elem_of_nil in Hin.
    + rewrite IH. split; intros [hs Hin]; exists hs; [by right|].
      apply elem_of_cons in Hin as [Heq|?]; [discriminate|done].
    + rewrite elem_of_cons, IH. split.
      * intros [Heq|[hs Hin]]; [injection Heq as -> ->; exists hs0; by left|].
        exists hs. by right.
      * intros [hs Hin]. apply elem_of_cons in Hin as [Heq|Hin].
        -- injection Heq as -> -> ->. by left.
        -- right. by exists hs.
  - induction ps as [|[l0 [|h0 hs0]] ps IH]; simpl; [done|done|by rewrite IH].
Qed.

End StatusExtras.

Module DevUtilExtras.
Import DevUtil Examples.

(** Extra: after [ensure_docker_dev_network] a [dev] network exists, the
    existing networks are kept, and nothing is created when [dev] is
    already there, so a second call changes nothing. *)
Theorem ensure_docker_dev_network_spec (networks : list string) :
  "dev" ∈ ensure_docker_dev_network networks /\
  (forall n, n ∈ networks -> n ∈ ensure_docker_dev_network networks) /\
  ("dev" ∈ networks -> ensure_docker_dev_network networks = networks) /\
  ensure_docker_dev_network (ensure_docker_dev_network networks) =
    ensure_docker_dev_network networks.
Proof.
  assert (Hdev : "dev" ∈ ensure_docker_dev_network networks).
  { unfold ensure_docker_dev_network. case_bool_decide; [done|].
    apply elem_of_app. right. by left. }
  split; [done|]. split; [|split].
  - intros n Hn. unfold ensure_docker_dev_network. case_bool_decide; [done|].
    apply elem_of_app. by left.
  - intros Hin. unfold ensure_docker_dev_network. by rewrite bool_decide_eq_true_2.
  - unfold ensure_docker_dev_network at 1. by rewrite bool_decide_eq_true_2.
Qed.

Lemma ensure_docker_dev_network_spec_witness :
  ensure_docker_dev_network ["bridge"; "dev"] = ["bridge"; "dev"].
Proof.
  apply (proj1 (proj2 (proj2 (ensure_docker_dev_network_spec ["bridge"; "dev"])))).
  right. by left.
Defined.

Lemma run_upgrades_sound find run containers uc is_testing us name command :
  (name, command) ∈ (run_upgrades find run containers uc is_testing us).1 ->
  exists u, u ∈ us /\ find u = Some name /\ u_command u = Some command /\
    (is_testing = true -> apply_when_testing (u_conditions u) = Some true) /\
    (Deploy.nonempty containers = true -> name ∈ uc).
Proof.
  induction us as [|u us IH]; simpl.
  { intros Hin. by apply not_elem_of_nil in Hin. }
  destruct (apply_when_testing (u_conditions u)) as [a|] eqn:Ha;
    [|intros Hin; by apply not_elem_of_nil in Hin].
  destruct (is_testing && negb a) eqn:Ht.
  { intros Hin. destruct (IH Hin) as (u' & Hu' & Hrest). exists u'. split; [by right|done]. }
  destruct (find u) as [n|] eqn:Hf; [|intros Hin; by apply not_elem_of_nil in Hin].
  destruct (Deploy.nonempty containers && negb (bool_decide (n ∈ uc))) eqn:Hc.
  { intros Hin. destruct (IH Hin) as (u' & Hu' & Hrest). exists u'. split; [by right|done]. }
  destruct (u_command u) as [c|] eqn:Hcmd; [|intros Hin; by apply not_elem_of_nil in Hin].
  assert (Hhead : exists u0, u0 ∈ u :: us /\ find u0 = Some n /\ u_command u0 = Some c /\
            (is_testing = true -> apply_when_testing (u_conditions u0) = Some true) /\
            (Deploy.nonempty containers = true -> n ∈ uc)).
  { exists u. split; [by left|]. do 2 (split; [done|]). split.
    - intros ->. rewrite Ha. by destruct a.
    - intros Hne. rewrite Hne in Hc. simpl in Hc.
      by apply negb_false_iff, bool_decide_eq_true in Hc. }
  destruct (run n c).
  - destruct (run_upgrades find run containers uc is_testing us) as [ran ok] eqn:Hr.
    simpl. intros [Heq|Hin]%elem_of_cons.
    + injection Heq as -> ->. exact Hhead.
    + destruct (IH Hin) as (u' & Hu' & Hrest). exists u'. split; [by right|done].
  - simpl. intros [Heq|Hin]%elem_of_cons.
    + injection Heq as -> ->. exact Hhead.
    + by apply not_elem_of_nil in Hin.
Qed.

Lemma run_upgrades_complete find run containers uc is_testing us :
  (forall u, u ∈ us -> apply_when_testing (u_conditions u) <> None /\
                       find u <> None /\ u_command u <> None) ->
  (forall n c, run n c = true) ->
  (run_upgrades find run containers uc is_testing us).2 = true /\
  forall name command,
    (name, command) ∈ (run_upgrades find run containers uc is_testing us).1 <->
    exists u, u ∈ us /\ find u = Some name /\ u_command u = Some command /\
      (is_testing = true -> apply_when_testing (u_conditions u) = Some true) /\
      (Deploy.nonempty containers = true -> name ∈ uc).
Proof.
  intros Hwf Hrun. induction us as [|u us IH]; simpl.
  { split; [done|]. intros name command. split.
    - intros Hin. by apply not_elem_of_nil in Hin.
    - intros (u & Hu & _). by apply not_elem_of_nil in Hu. }
  destruct IH as [IHok IHin]. { intros u' Hu'. apply Hwf. by right. }
  destruct (Hwf u ltac:(by left)) as (Ha & Hf & Hc).
  destruct (apply_when_testing (u_conditions u)) as [a|] eqn:Ha'; [|done].
  destruct (is_testing && negb a) eqn:Ht.
  { split; [done|]. intros name command. rewrite IHin. split.
    - intros (u' & Hu' & Hrest). exists u'. split; [by right|done].
    - intros (u' & Hu' & Hf' & Hc' & Ht' & Hn'). apply elem_of_cons in Hu' as [->|Hu'].
      + apply andb_true_iff in Ht as [-> Hneg]. rewrite Ha' in Ht'.
        specialize (Ht' eq_refl). injection Ht' as ->. done.
      + exists u'. done. }
  destruct (find u) as [n|] eqn:Hf'; [|done].
  destruct (Deploy.nonempty containers && negb (bool_decide (n ∈ uc))) eqn:Hc'.
  { split; [done|]. intros name command. rewrite IHin. split.
    - intros (u' & Hu' & Hrest). exists u'. split; [by right|done].
    - intros (u' & Hu' & Hf'' & Hc'' & Ht' & Hn'). apply elem_of_cons in Hu' as [->|Hu'].
      + apply andb_true_iff in Hc' as [Hne Hnot]. rewrite Hf' in Hf''.
        injection Hf'' as ->. apply negb_true_iff, bool_decide_eq_false in Hnot.
        by specialize (Hn' Hne).
      + exists u'. done. }
  destruct (u_command u) as [c|] eqn:Hcmd; [|done].
  rewrite Hrun.
  destruct (run_upgrades find run containers uc is_testing us) as [ran ok] eqn:Hr.
  simpl in IHok, IHin |- *. split; [done|]. intros name command.
  rewrite elem_of_cons, IHin. split.
  - intros [Heq|(u' & Hu' & Hrest)].
    + injection Heq as -> ->. exists u. split; [by left|]. do 2 (split; [done|]). split.
      * intros ->. rewrite Ha'. by destruct a.
      * intros Hne. rewrite Hne in Hc'. simpl in Hc'.
        by apply negb_false_iff, bool_decide_eq_true in Hc'.
    + exists u'. split; [by right|done].
  - intros (u' & Hu' & Hf'' & Hc'' & Hrest). apply elem_of_cons in Hu' as [->|Hu'].
    + left. rewrite Hf' in Hf''. rewrite Hcmd in Hc''. congruence.
    + right. exists u'. done.
Qed.

Lemma run_upgrades_prefix find run containers uc is_testing us :
  (run_upgrades find run containers uc is_testing us).1 `prefix_of`
    (run_upgrades find (fun _ _ => true) containers uc is_testing us).1 /\
  ((run_upgrades find run containers uc is_testing us).2 = true ->
   run_upgrades find run containers uc is_testing us =
     run_upgrades find (fun _ _ => true) containers uc is_testing us).
Proof.
  induction us as [|u us IH]; simpl; [done|].
  destruct (apply_when_testing (u_conditions u)) as [a|]; [|done].
  destruct (is_testing && negb a); [done|].
  destruct (find u) as [n|]; [|done].
  destruct (Deploy.nonempty containers && negb (bool_decide (n ∈ uc))); [done|].
  destruct (u_command u) as [c|]; [|done].
  destruct IH as [IHp IHeq].
  destruct (run_upgrades find (fun _ _ => true) containers uc is_testing us)
    as [ran' ok'] eqn:Hr'.
  destruct (run n c).
  - destruct (run_upgrades find run containers uc is_testing us) as [ran ok] eqn:Hr.
    simpl in *. split; [by apply prefix_cons|].
    intros ->. specialize (IHeq eq_refl). injection IHeq as -> ->. done.
  - simpl. split; [|done]. apply prefix_cons, prefix_nil.
Qed.

Lemma run_upgrades_app find run containers uc is_testing pre rest :
  run_upgrades find run containers uc is_testing (pre ++ rest) =
  match run_upgrades find run containers uc is_testing pre with
  | (r, true) =>
      let '(r', ok') := run_upgrades find run containers uc is_testing rest in
      ((r ++ r')%list, ok')
  | (r, false) => (r, false)
  end.
Proof.
  induction pre as [|u pre IH]; simpl.
  { by destruct (run_upgrades find run containers uc is_testing rest). }
  destruct (apply_when_testing (u_conditions u)) as [a|]; [|done].
  destruct (is_testing && negb a); [done|].
  destruct (find u) as [n|]; [|done].
  destruct (Deploy.nonempty containers && negb (bool_decide (n ∈ uc))); [done|].
  destruct (u_command u) as [c|]; [|done].
  destruct (run n c); [|done].
  rewrite IH.
  destruct (run_upgrades find run containers uc is_testing pre) as [r [|]]; [|done].
  by destruct (run_upgrades find run containers uc is_testing rest).
Qed.

(** Extra: every (container, command) pair [up] hands to [run_container],
    whatever fails along the way, comes from an upgrade of the config: the
    status listing, the build and the start returned, upgrades are on,
    there is something to upgrade (containers named on the command line or
    a non-empty status map), the container is the one found for the
    upgrade, the command is its [command], a test run only runs upgrades
    whose [conditions.test] is true or missing, and when containers are
    named the container is one of them. *)
Theorem up_runs_selected statuses build_ok up_ok find run upgrades containers
    no_upgrade is_testing name command :
  (name, command) ∈
    (up statuses build_ok up_ok find run upgrades containers no_upgrade is_testing).1 ->
  no_upgrade = false /\ build_ok = true /\ up_ok = true /\
  (exists names, statuses = Some names /\
     (Deploy.nonempty containers = true \/ Deploy.nonempty names = true)) /\
  exists u, u ∈ upgrades /\ find u = Some name /\ u_command u = Some command /\
    (is_testing = true -> apply_when_testing (u_conditions u) = Some true) /\
    (Deploy.nonempty containers = true -> name ∈ containers).
Proof.
  unfold up. destruct statuses as [names|];
    [|simpl; intros Hin; by apply not_elem_of_nil in Hin].
  destruct build_ok, up_ok; simpl; try (intros Hin; by apply not_elem_of_nil in Hin).
  destruct no_upgrade; simpl; [intros Hin; by apply not_elem_of_nil in Hin|].
  destruct (Deploy.nonempty containers) eqn:Hc.
  - rewrite Hc. intros Hin.
    destruct (run_upgrades_sound _ _ _ _ _ _ _ _ Hin) as (u & Hu & Hf & Hcmd & Ht & Hn).
    do 3 (split; [done|]). split; [exists names; by auto|].
    exists u. repeat split; try done. intros _. by apply Hn.
  - destruct (Deploy.nonempty names) eqn:Hn; [|intros Hin; by apply not_elem_of_nil in Hin].
    intros Hin. destruct (run_upgrades_sound _ _ _ _ _ _ _ _ Hin) as (u & Hu & Hf & Hcmd & Ht & _).
    do 3 (split; [done|]). split; [exists names; by auto|].
    exists u. repeat split; done.
Qed.

(** Running upgrades in [web] during a test run: [seed] is disabled for
    tests, [migrate] runs. *)
Lemma up_runs_selected_witness :
  false = false /\ true = true /\ true = true /\
  (exists names, Some ["web"; "db"] = Some names /\
     (Deploy.nonempty (@nil string) = true \/ Deploy.nonempty names = true)) /\
  exists u, u ∈ [migrate; seed] /\ Some "web" = Some "web" /\
    u_command u = Some ["migrate"] /\
    (true = true -> apply_when_testing (u_conditions u) = Some true) /\
    (Deploy.nonempty (@nil string) = true -> "web" ∈ @nil string).
Proof.
  apply (up_runs_selected (Some ["web"; "db"]) true true (fun _ => Some "web")
           (fun _ _ => true) [migrate; seed] [] false true "web" ["migrate"]).
  simpl. by left.
Defined.

(** Extra: when nothing fails (every upgrade has a mapping or no
    [conditions], a container and a [command], and every command runs),
    [up] gets past the upgrades, and runs exactly the selected ones: an
    upgrade runs, in the container found for it, iff upgrades are on,
    there is something to upgrade, it is not disabled for tests during a
    test run, and, only when containers are named, its container is one
    of them. *)
Theorem up_runs_all_selected names find run upgrades containers no_upgrade is_testing :
  (forall u, u ∈ upgrades -> apply_when_testing (u_conditions u) <> None /\
                             find u <> None /\ u_command u <> None) ->
  (forall n c, run n c = true) ->
  (up (Some names) true true find run upgrades containers no_upgrade is_testing).2 = true /\
  forall name command,
    (name, command) ∈
      (up (Some names) true true find run upgrades containers no_upgrade is_testing).1 <->
    no_upgrade = false /\
    (Deploy.nonempty containers = true \/ Deploy.nonempty names = true) /\
    exists u, u ∈ upgrades /\ find u = Some name /\ u_command u = Some command /\
      (is_testing = true -> apply_when_testing (u_conditions u) = Some true) /\
      (Deploy.nonempty containers = true -> name ∈ containers).
Proof.
  intros Hwf Hrun. unfold up. simpl.
  destruct no_upgrade; simpl.
  { split; [done|]. intros name command. split; [|by intros [? _]].
    intros Hin. by apply not_elem_of_nil in Hin. }
  destruct (Deploy.nonempty containers) eqn:Hc.
  - destruct (run_upgrades_complete find run containers containers
                is_testing upgrades Hwf Hrun) as [Hok Hin].
    simpl. rewrite Hc. rewrite Hc in Hin.
    split; [done|]. intros name command. rewrite Hin. split; [|by intros (_ & _ & ?)].
    intros Hsel. split; [done|]. split; [by left|done].
  - destruct (run_upgrades_complete find run containers names
                is_testing upgrades Hwf Hrun) as [Hok Hin].
    simpl. rewrite Hc in Hin. destruct (Deploy.nonempty names) eqn:Hn.
    + split; [done|]. intros name command. rewrite Hin. split.
      * intros (u & Hu & Hf & Hcmd & Ht & _). split; [done|]. split; [by right|].
        exists u. by repeat split.
      * intros (_ & _ & u & Hu & Hf & Hcmd & Ht & _). exists u. by repeat split.
    + split; [done|]. intros name command. split.
      * intros Hin'. by apply not_elem_of_nil in Hin'.
      * by intros (_ & [? | ?] & _).
Qed.

Lemma up_runs_all_selected_witness :
  (up (Some ["web"; "db"]) true true (fun _ => Some "web") (fun _ _ => true)
      [migrate; seed] [] false true).2 = true /\
  forall name command,
    (name, command) ∈
      (up (Some ["web"; "db"]) true true (fun _ => Some "web") (fun _ _ => true)
          [migrate; seed] [] false true).1 <->
    false = false /\
    (Deploy.nonempty (@nil string) = true \/ Deploy.nonempty ["web"; "db"] = true) /\
    exists u, u ∈ [migrate; seed] /\ Some "web" = Some name /\ u_command u = Some command /\
      (true = true -> apply_when_testing (u_conditions u) = Some true) /\
      (Deploy.nonempty (@nil string) = true -> name ∈ @nil string).
Proof.
  apply (up_runs_all_selected ["web"; "db"] (fun _ => Some "web") (fun _ _ => true)
           [migrate; seed] [] false true).
  - intros u Hu. apply list_elem_of_In in Hu. simpl in Hu.
    destruct Hu as [<-|[<-|[]]]; split_and!; discriminate.
  - done.
Defined.

(** Extra: a failing [run_container] only cuts the upgrades short: the
    commands run are a prefix of those run when every command succeeds,
    and all of them when [up] gets past the upgrades. *)
Theorem up_run_failure_truncates statuses build_ok up_ok find run upgrades containers
    no_upgrade is_testing :
  (up statuses build_ok up_ok find run upgrades containers no_upgrade is_testing).1
    `prefix_of`
    (up statuses build_ok up_ok find (fun _ _ => true) upgrades containers
        no_upgrade is_testing).1 /\
  ((up statuses build_ok up_ok find run upgrades containers no_upgrade is_testing).2 = true ->
   up statuses build_ok up_ok find run upgrades containers no_upgrade is_testing =
   up statuses build_ok up_ok find (fun _ _ => true) upgrades containers
     no_upgrade is_testing).
Proof.
  unfold up. destruct statuses as [names|]; [|done].
  destruct (build_ok && up_ok); [|done].
  destruct (Deploy.nonempty _); [|done].
  apply run_upgrades_prefix.
Qed.

(** Extra: an upgrade whose [conditions] has no [.get] (such as
    [conditions: null]) stops [up] when the loop reaches it, also outside
    test runs: the upgrades after it are not run, and [up] does not get
    past the upgrades. *)
Theorem up_stops_at_non_mapping_conditions names find run pre u post containers
    no_upgrade is_testing :
  no_upgrade = false ->
  (Deploy.nonempty containers = true \/ Deploy.nonempty names = true) ->
  u_conditions u = CondNotMapping ->
  (up (Some names) true true find run (pre ++ u :: post) containers no_upgrade is_testing).1 =
    (up (Some names) true true find run pre containers no_upgrade is_testing).1 /\
  (up (Some names) true true find run (pre ++ u :: post) containers no_upgrade is_testing).2 =
    false.
Proof.
  intros -> Hsome Hu. unfold up. simpl.
  assert (Hne : Deploy.nonempty (if Deploy.nonempty containers then containers else names) = true).
  { destruct (Deploy.nonempty containers) eqn:Hc; [done|]. by destruct Hsome. }
  rewrite Hne, run_upgrades_app. simpl. rewrite Hu. simpl.
  destruct (run_upgrades _ _ _ _ _ pre) as [r [|]]; simpl; [|done].
  by rewrite app_nil_r.
Qed.

(** [migrate] runs, then [broken] ([conditions: null]) stops the loop
    before [seed]. *)
Lemma up_stops_at_non_mapping_conditions_witness :
  (up (Some ["web"]) true true (fun _ => Some "web") (fun _ _ => true)
      [migrate; broken; seed] [] false false).1 = [("web", ["migrate"])] /\
  (up (Some ["web"]) true true (fun _ => Some "web") (fun _ _ => true)
      [migrate; broken; seed] [] false false).2 = false.
Proof.
  pose proof (up_stops_at_non_mapping_conditions ["web"] (fun _ => Some "web")
                (fun _ _ => true) [migrate] broken [seed] [] false false
                eq_refl (or_intror eq_refl) eq_refl) as H.
  exact H.
Defined.

End DevUtilExtras.

Module DeployExtraFacts.
Import Deploy.

Local Open Scope list_scope.

Lemma delete_objects_trace (k : kind) (os : list kube_object) (tr : list event) :
  delete_objects k os tr = (inl tt, tr ++ deletions k os).
Proof.
  revert tr; induction os as [|o os IH]; intros tr; simpl.
  - by rewrite app_nil_r.
  - unfold bind, emit. rewrite IH, <- app_assoc. done.
Qed.

Lemma get_objects_ok (object_type : string) (k : kind) (live : cluster)
    (remove_all : bool) (app_names : list string) (check_leftovers : bool)
    (tr tr' : list event) (l : list kube_object) :
  get_objects_to_delete object_type k live remove_all app_names check_leftovers tr =
    (inl l, tr') ->
  l = selected live remove_all app_names k /\ tr' = tr ++ [EvList k].
Proof.
  unfold get_objects_to_delete, selected, bind, emit, ret, raise. simpl.
  destruct remove_all; [by intros [= <- <-]|].
  destruct check_leftovers; [|by intros [= <- <-]].
  case_decide; [by intros [= <- <-]|done].
Qed.

End DeployExtraFacts.

Module DeployExtras.
Import Deploy DeployExtraFacts Examples.

Local Open Scope list_scope.

(** Extra: a [remove] that returns made exactly these calls: the three
    listings, then nothing if nothing was selected, else the prompt
    (skipped by [--yes]) and the deletion of every selected service,
    deployment and job, in that order. With [--all] every live object of
    the namespace is selected, otherwise those labelled with a given
    name. *)
Theorem remove_success_trace (live : cluster) (remove_all yes : bool)
    (app_names : list string) (tr : list event) :
  remove live remove_all yes app_names [] = (inl tt, tr) ->
  let s := selected live remove_all app_names KService in
  let d := selected live remove_all app_names KDeployment in
  let j := selected live remove_all app_names KJob in
  tr = [EvList KService; EvList KDeployment; EvList KJob] ++
    (if nonempty s || nonempty d || nonempty j
     then (if yes then [] else [EvConfirm]) ++
          deletions KService s ++ deletions KDeployment d ++ deletions KJob j
     else []).
Proof.
  unfold remove.
  destruct (negb (nonempty app_names) && negb remove_all); [done|].
  destruct (nonempty app_names && remove_all); [done|].
  unfold bind at 1.
  destruct (get_objects_to_delete "Services" _ _ _ _ _ []) as [[s|e1] tr1] eqn:Hs;
    [|done].
  apply get_objects_ok in Hs as [-> ->]. unfold bind at 1.
  destruct (get_objects_to_delete "Deployments" _ _ _ _ _ _) as [[d|e2] tr2] eqn:Hd;
    [|done].
  apply get_objects_ok in Hd as [-> ->]. unfold bind at 1.
  destruct (get_objects_to_delete "Jobs" _ _ _ _ _ _) as [[j|e3] tr3] eqn:Hj;
    [|done].
  apply get_objects_ok in Hj as [-> ->]. simpl.
  destruct (nonempty _ || nonempty _ || nonempty _); simpl.
  - unfold bind. destruct yes; simpl; rewrite !delete_objects_trace;
      intros [= <-]; by rewrite <- !app_assoc.
  - intros [= <-]. by rewrite ?app_nil_r.
Qed.

(** [ktd remove api] without [--yes] on the [api] namespace. *)
Lemma remove_success_trace_witness :
  remove live_api false false ["api"] [] =
    (inl tt, [EvList KService; EvList KDeployment; EvList KJob; EvConfirm;
              EvDelete KService "api"; EvDelete KDeployment "api"]) /\
  [EvList KService; EvList KDeployment; EvList KJob; EvConfirm;
   EvDelete KService "api"; EvDelete KDeployment "api"] =
    [EvList KService; EvList KDeployment; EvList KJob] ++
    [EvConfirm; EvDelete KService "api"; EvDelete KDeployment "api"].
Proof.
  assert (H : remove live_api false false ["api"] [] =
    (inl tt, [EvList KService; EvList KDeployment; EvList KJob; EvConfirm;
              EvDelete KService "api"; EvDelete KDeployment "api"])) by reflexivity.
  split; [exact H|].
  etransitivity; [exact (remove_success_trace live_api false false ["api"] _ H)|].
  reflexivity.
Defined.

End DeployExtras.

Module DeployCliExtras.
Import DeployCli.

(** Extra: every deployed object is annotated with its environment,
    namespace, commit and [managed-by: kubetools]; with its branch unless
    [HEAD] is detached; and with the output of [git tag --points-at]
    whenever that call succeeds, the empty string included; with nothing
    else. *)
Theorem annotations_keys (env namespace commit_hash branch_name : string)
    (git_tag : option string) :
  let a := annotations env namespace commit_hash branch_name git_tag in
  a !! "kubetools/env" = Some env /\
  a !! "kubetools/namespace" = Some namespace /\
  a !! "kubetools/git_commit" = Some commit_hash /\
  a !! "app.kubernetes.io/managed-by" = Some "kubetools" /\
  a !! "kubetools/git_branch" =
    (if String.eqb branch_name "HEAD" then None else Some branch_name) /\
  a !! "kubetools/git_tag" = git_tag /\
  (forall k, k ∉ ["kubetools/env"; "kubetools/namespace"; "kubetools/git_commit";
                  "app.kubernetes.io/managed-by"; "kubetools/git_branch";
                  "kubetools/git_tag"] -> a !! k = None).
Proof.
  unfold annotations. simpl.
  destruct (String.eqb branch_name "HEAD"), git_tag as [tag|];
    (split; [by simplify_map_eq|]); (split; [by simplify_map_eq|]);
    (split; [by simplify_map_eq|]); (split; [by simplify_map_eq|]);
    (split; [by simplify_map_eq|]); (split; [by simplify_map_eq|]);
    intros k Hk; rewrite !not_elem_of_cons in Hk;
    destruct Hk as (H1 & H2 & H3 & H4 & H5 & H6 & _);
    rewrite ?lookup_insert_ne by congruence; apply lookup_empty.
Qed.

(** A deployment from a detached [HEAD] whose commit has no tag. *)
Lemma annotations_keys_witness :
  annotations "production" "default" "abc1234" "HEAD" (Some "") !! "kubetools/git_branch" = None /\
  annotations "production" "default" "abc1234" "HEAD" (Some "") !! "kubetools/git_tag" = Some "".
Proof.
  destruct (annotations_keys "production" "default" "abc1234" "HEAD" (Some ""))
    as (_ & _ & _ & _ & Hb & Ht & _).
  split; [exact Hb|exact Ht].
Defined.

(** Lemma on the dict comprehension. *)
Lemma name_to_object_fold {O : Type} (get_object_name : O -> string) (objects : list O)
    (m0 : gmap string O) (n : string) (o : O) :
  fold_left (fun m obj => <[get_object_name obj := obj]> m) objects m0 !! n = Some o ->
  (m0 !! n = Some o /\ n ∉ map get_object_name objects) \/
  (get_object_name o = n /\ exists pre post, objects = (pre ++ o :: post)%list /\
     n ∉ map get_object_name post).
Proof.
  revert m0; induction objects as [|x xs IH]; intros m0 H; simpl in H.
  - left. split; [done|]. apply not_elem_of_nil.
  - destruct (IH _ H) as [[Hm Hn]|(Hg & pre & post & -> & Hn)].
    + destruct (decide (get_object_name x = n)) as [<-|Hne].
      * rewrite lookup_insert_eq in Hm. injection Hm as ->.
        right. split; [done|]. by exists [], xs.
      * rewrite lookup_insert_ne in Hm by done. left. split; [done|].
        simpl. rewrite not_elem_of_cons. split; [congruence|done].
    + right. split; [done|]. by exists (x :: pre), post.
Qed.

(** Extra: in a dry run, a printed object is the last one of its name (an
    earlier object with the same name can never be printed), and an
    object named [exit] is never printed: choosing [exit] ends the loop. *)
Theorem dry_run_prints_last_named {O : Type} (get_object_name : O -> string)
    (objects : list O) (inputs : list string) (o : O) :
  o ∈ (dry_deploy_object_loop (name_to_object get_object_name objects) inputs).1 ->
  get_object_name o <> "exit" /\
  exists pre post, objects = (pre ++ o :: post)%list /\
    get_object_name o ∉ map get_object_name post.
Proof.
  induction inputs as [|a inputs IH]; simpl; [intros Hin; by apply not_elem_of_nil in Hin|].
  destruct (name_to_object get_object_name objects !! (if String.eqb a "" then "exit" else a))
    as [obj|] eqn:Hl; [|exact IH].
  destruct (String.eqb (if String.eqb a "" then "exit" else a) "exit") eqn:Hex;
    [simpl; intros Hin; by apply not_elem_of_nil in Hin|].
  destruct (dry_deploy_object_loop (name_to_object get_object_name objects) inputs)
    as [printed ok] eqn:Hr.
  simpl in IH |- *. intros Hin. apply elem_of_cons in Hin as [->|Hin]; [|by apply IH].
  unfold name_to_object in Hl.
  destruct (name_to_object_fold _ _ _ _ _ Hl) as [[Hm _]|(Hg & pre & post & Hobj & Hn)];
    [by rewrite lookup_empty in Hm|].
  rewrite Hg. split; [by apply String.eqb_neq|]. by exists pre, post.
Qed.

(** Two services named [web]: choosing [web] prints the second; [exit]
    is refused (no service is named [exit]) and the input then runs out. *)
Lemma dry_run_prints_last_named_witness :
  fst ("web", 2) <> "exit" /\
  exists pre post, [("web", 1); ("web", 2)] = (pre ++ ("web", 2) :: post)%list /\
    fst ("web", 2) ∉ map fst post.
Proof.
  apply (dry_run_prints_last_named fst [("web", 1); ("web", 2)] ["web"; "exit"; ""]).
  vm_compute. by left.
Defined.

(** Extra: the dry-run loop ends by [break] only when an object is named
    [exit]; otherwise neither the default nor a typed [exit] is a valid
    choice, and the prompt repeats until the input runs out
    ([click.Abort]). *)
Theorem dry_run_exit_needs_exit_object {O : Type} (get_object_name : O -> string)
    (objects : list O) (inputs : list string) :
  (dry_deploy_object_loop (name_to_object get_object_name objects) inputs).2 = true ->
  exists o, o ∈ objects /\ get_object_name o = "exit".
Proof.
  induction inputs as [|a inputs IH]; simpl; [done|].
  destruct (name_to_object get_object_name objects !! (if String.eqb a "" then "exit" else a))
    as [obj|] eqn:Hl; [|exact IH].
  destruct (String.eqb (if String.eqb a "" then "exit" else a) "exit") eqn:Hex.
  - intros _. apply String.eqb_eq in Hex. rewrite Hex in Hl.
    unfold name_to_object in Hl.
    destruct (name_to_object_fold _ _ _ _ _ Hl) as [[Hm _]|(Hg & pre & post & Hobj & _)];
      [by rewrite lookup_empty in Hm|].
    exists obj. split; [|done]. rewrite Hobj. apply elem_of_app. right. by left.
  - destruct (dry_deploy_object_loop (name_to_object get_object_name objects) inputs)
      as [printed ok] eqn:Hr.
    exact IH.
Qed.

(** A job named [exit]: an empty answer (the default) ends the loop. *)
Lemma dry_run_exit_needs_exit_object_witness :
  exists o, o ∈ [("exit", 1); ("web", 2)] /\ fst o = "exit".
Proof.
  apply (dry_run_exit_needs_exit_object fst [("exit", 1); ("web", 2)] ["web"; ""]).
  vm_compute. reflexivity.
Defined.

End DeployCliExtras.

Module ComposeExtras.
Import DevUtil Process.

(** Extra: a failed compose command reports the whole [docker-compose]
    command line, the given arguments last. *)
Theorem run_compose_process_error_args (compose_name compose_filename : string)
    (command_args : list string) (debug : nat) (capture_output : option bool)
    (outcome : process_outcome) (e : command_error) :
  run_compose_process compose_name compose_filename command_args debug capture_output
    outcome = inr e ->
  err_args e = (["docker-compose"; "--project-directory"; "."; "--project-name";
                 compose_name; "--file"; compose_filename] ++ command_args)%list.
Proof.
  unfold run_compose_process, run_process.
  destruct outcome as [exc|code lines]; [by intros [= <-]|].
  destruct (0 <? code)%Z; [by intros [= <-]|done].
Qed.

Lemma run_compose_process_error_args_witness :
  err_args (KubeDevCommandError (compose_command "webdev" ".kubetools/webdev.yml" ["up"])
              (Exception "No such file or directory")) =
    (["docker-compose"; "--project-directory"; "."; "--project-name";
      "webdev"; "--file"; ".kubetools/webdev.yml"] ++ ["up"])%list.
Proof.
  apply (run_compose_process_error_args "webdev" ".kubetools/webdev.yml" ["up"] 0 None
           (SpawnFailed "No such file or directory")).
  reflexivity.
Defined.

End ComposeExtras.
